(** * The Zep vector-store example: readiness polling and search queries

    The repository's sources are documentation: a quickstart guide and two
    notebooks.  Most of their code is calls into libraries and into an
    external store.  The logic of their own is [wait_for_ready], a polling
    loop of the vector-store notebook, the output parser the quickstart
    guide writes, the loop that loads a chat history in the retriever
    notebook, and the name the vector-store notebook gives its collection.

    [wait_for_ready] talks to an external store and may run forever, so it
    is embedded as an interaction tree; a run is that tree with the store's
    answers filled in, and what is left of it is what an observer sees:
    connections, fetches, printed lines and sleeps. *)

From Stdlib Require Import String Ascii List Arith NArith Lia Bool.
From Stdlib Require Import DecimalString DecimalNat Morphisms Setoid RelationClasses.
From Stdlib Require Import QArith Orders Permutation Mergesort.
From ITree Require Import ITree ITreeFacts Events.State Events.StateFacts.
Import ListNotations.
Import ITreeNotations.
Close Scope Q_scope.
Local Open Scope string_scope.
Local Open Scope list_scope.
Local Open Scope itree_scope.

(** ** Data the loop reads *)

(** The object [client.document.aget_collection] returns: the loop reads
    exactly these three attributes of it. *)
Record DocumentCollection : Type := mkCollection {
  document_count : nat;
  document_embedded_count : nat;
  status : string
}.

(** [ZepClient(ZEP_API_URL, ZEP_API_KEY)] *)
Record Client : Type := mkClient {
  base_url : string;
  api_key : string
}.

Definition ZEP_API_URL : string := "http://localhost:8000".
Definition ZEP_API_KEY : string := "<optional_key>".

(** ** The poller *)

Module Poller.

(** What the loop does to the outside world. *)
Variant zepE : Type -> Type :=
| ZepClient (api_url key : string) : zepE Client
| aget_collection (client : Client) (collection_name : string)
    : zepE DocumentCollection
| print (line : string) : zepE unit
| time_sleep (seconds : nat) : zepE unit.

(** Python's [str] on a non-negative integer, as the f-string applies it. *)
Definition str (n : nat) : string :=
  NilEmpty.string_of_uint (Nat.to_uint n).

(** The argument of [print]:
    ["Embedding status: " f"{c.document_embedded_count}/{c.document_count} documents embedded"] *)
Definition progress_line (c : DocumentCollection) : string :=
  "Embedding status: "
  ++ str (document_embedded_count c) ++ "/" ++ str (document_count c)
  ++ " documents embedded".
#[global] Arguments progress_line : simpl never.

(** [c.status == "ready"] *)
Definition is_ready (c : DocumentCollection) : bool :=
  String.eqb (status c) "ready".

(** The body of [while True]: [inr tt] is the [break], [inl tt] goes round
    again. *)
Definition poll (client : Client) (collection_name : string)
  : itree zepE (unit + unit) :=
  c <- ITree.trigger (aget_collection client collection_name) ;;
  ITree.trigger (print (progress_line c)) ;;
  ITree.trigger (time_sleep 1) ;;
  if is_ready c then Ret (inr tt) else Ret (inl tt).

Definition polling_loop (client : Client) (collection_name : string)
  : itree zepE unit :=
  ITree.iter (fun _ : unit => poll client collection_name) tt.

Definition wait_for_ready (collection_name : string) : itree zepE unit :=
  client <- ITree.trigger (ZepClient ZEP_API_URL ZEP_API_KEY) ;;
  polling_loop client collection_name.

(** ** What an observer sees of a run *)

Variant obs : Type :=
| Connected (api_url key : string)
| Fetched (collection_name : string)
| Printed (line : string)
| Slept (seconds : nat).

Variant outE : Type -> Type :=
| Out (o : obs) : outE unit.

(** The tree that shows [l], in this order, and then goes on as [u]. *)
Fixpoint say {R : Type} (l : list obs) (u : itree outE R) : itree outE R :=
  match l with
  | [] => u
  | o :: l' => Vis (Out o) (fun _ => say l' u)
  end.

(** What an event shows, and the answer it gets. *)
Definition shown {X : Type} (e : outE X) : obs * X :=
  match e with
  | Out o => (o, tt)
  end.

(** Looking at a tree for [fuel] steps: what it shows, and what it
    returns if it gets that far. *)
Fixpoint observe_for {R : Type} (fuel : nat) (t : itree outE R)
  : list obs * option R :=
  match fuel with
  | 0 => ([], None)
  | S fuel' =>
      match observe t with
      | RetF r => ([], Some r)
      | TauF t' => observe_for fuel' t'
      | VisF e k =>
          let (l, r) := observe_for fuel' (k (snd (shown e))) in
          (fst (shown e) :: l, r)
      end
  end.

(** The lines on standard output, oldest first. *)
Definition printed (l : list obs) : list string :=
  List.flat_map (fun o => match o with Printed s => [s] | _ => [] end) l.

Definition seconds_slept (l : list obs) : nat :=
  list_sum (List.map (fun o => match o with Slept n => n | _ => 0 end) l).

Definition fetches (l : list obs) : nat :=
  length (List.filter (fun o => match o with Fetched _ => true | _ => false end) l).

Section Run.

(** The store's answers: [responses i] is what the [i]-th status fetch
    (counting from 0) returns; every fetch is answered, with a collection
    whose counts are numbers.  The state of a run is the number of fetches
    answered so far. *)
Variable responses : nat -> DocumentCollection.

Definition h_store : zepE ~> Monads.stateT nat (itree outE) :=
  fun T (e : zepE T) (s : nat) =>
    match e in zepE T return itree outE (nat * T) with
    | ZepClient url key =>
        Vis (Out (Connected url key)) (fun _ => Ret (s, mkClient url key))
    | aget_collection _ n =>
        Vis (Out (Fetched n)) (fun _ => Ret (S s, responses s))
    | print line => Vis (Out (Printed line)) (fun _ => Ret (s, tt))
    | time_sleep n => Vis (Out (Slept n)) (fun _ => Ret (s, tt))
    end.

(** A run of [wait_for_ready]. *)
Definition run (collection_name : string) : itree outE (nat * unit) :=
  interp_state h_store (wait_for_ready collection_name) 0.

(** The run shows at least [l]. *)
Definition emits (collection_name : string) (l : list obs) : Prop :=
  exists u, run collection_name ≈ say l u.

(** The run shows exactly [l] and then returns to its caller. *)
Definition returns (collection_name : string) (l : list obs) : Prop :=
  exists s, run collection_name ≈ say l (Ret (s, tt)).

Definition never_returns (collection_name : string) : Prop :=
  forall l, ~ returns collection_name l.

(** What the [i]-th iteration shows. *)
Definition iteration (collection_name : string) (i : nat) : list obs :=
  [Fetched collection_name; Printed (progress_line (responses i)); Slept 1].

(** What iterations [from], ..., [from + k - 1] show. *)
Definition iterations (collection_name : string) (from k : nat) : list obs :=
  List.flat_map (iteration collection_name) (seq from k).

(** What a run shows up to the end of its [k]-th iteration. *)
Definition trace (collection_name : string) (k : nat) : list obs :=
  Connected ZEP_API_URL ZEP_API_KEY :: iterations collection_name 0 k.

(** Poll [n] is the first whose response has status "ready". *)
Definition first_ready (n : nat) : Prop :=
  is_ready (responses n) = true
  /\ forall i, i < n -> is_ready (responses i) = false.

End Run.

End Poller.

(** ** The two waits the notebook records *)

Module Recorded.
Import Poller.

(** A sequence of responses that gives the output recorded under the first
    [await wait_for_ready(collection_name)]. *)
Definition first_wait (i : nat) : DocumentCollection :=
  match i with
  | 0 | 1 => mkCollection 402 0 "pending"
  | _ => mkCollection 402 402 "ready"
  end.

(** The same for the second wait, after [aadd_documents]. *)
Definition second_wait (i : nat) : DocumentCollection :=
  match nth_error [402; 402; 552; 702; 1002; 1002; 1152; 1302; 1452; 1602] i with
  | Some n => mkCollection 1692 n "pending"
  | None => mkCollection 1692 1692 "ready"
  end.

(** A store that never finishes embedding. *)
Definition stuck (_ : nat) : DocumentCollection := mkCollection 402 0 "pending".

(** A store that says "ready" with documents still to embed. *)
Definition early (_ : nat) : DocumentCollection := mkCollection 402 0 "ready".

(** The statuses of the first wait, with other counts. *)
Definition other_counts (i : nat) : DocumentCollection :=
  mkCollection 1692 5 (status (first_wait i)).

End Recorded.

(** ** The query client *)

Module Query.

(** Modelled from the spec: the Document of the data model, text content
    plus a metadata mapping with string keys. The class is
    [langchain.schema.Document], which is not among the sources; the
    notebooks read its [page_content] and [metadata], the latter printed
    as [{'source': '...'}]. *)
Record Document : Type := mkDocument {
  page_content : string;
  metadata : list (string * string)
}.

(** [d.metadata.get(key)] *)
Fixpoint lookup (key : string) (m : list (string * string)) : option string :=
  match m with
  | [] => None
  | (k, v) :: m' => if String.eqb k key then Some v else lookup key m'
  end.

(** Modelled from the spec: a document of a collection in the external
    store, with whether the store has embedded it yet.  The store is
    reached over HTTP and is not among the sources. *)
Record Stored : Type := mkStored {
  document : Document;
  is_embedded : bool
}.

(** Modelled from the spec: the Collection of the data model, as far as
    searching and the status go. *)
Definition Collection : Type := list Stored.

(** The documents a search can find. *)
Definition embedded_documents (c : Collection) : list Document :=
  List.map document (List.filter is_embedded c).

(** Modelled from the spec: the metadata filter, a path-query predicate
    with an equality test on a field.  The notebook passes
    [{"where": {"jsonpath": "$[*] ? (@.source == '...')"}}]. *)
Variant where_clause : Type :=
| jsonpath_eq (field value : string).

(** Modelled from the spec: whether a document's metadata passes the
    optional filter. *)
Definition satisfies (filter : option where_clause) (d : Document) : bool :=
  match filter with
  | None => true
  | Some (jsonpath_eq field value) =>
      match lookup field (metadata d) with
      | Some v => String.eqb v value
      | None => false
      end
  end.

(** Modelled from the spec: a Search Result, the document (with its
    metadata) and its relevance score, higher meaning more similar.  The
    scores are rationals here; every finite float is one. *)
Definition SearchResult : Type := (Document * Q)%type.

Definition score (r : SearchResult) : Q := snd r.

(** Modelled from the spec: the order of the results, by descending
    relevance. [a] may stand before [b] when its score is not below
    [b]'s. *)
Module ByRelevance <: TotalLeBool.

Definition t : Type := SearchResult.

Definition leb (a b : t) : bool := Qle_bool (score b) (score a).

Theorem leb_total : forall a b, leb a b = true \/ leb b a = true.
Proof.
  intros a b. unfold leb. rewrite !Qle_bool_iff.
  destruct (Qlt_le_dec (score a) (score b)) as [Hlt | Hle].
  - right. apply Qlt_le_weak, Hlt.
  - left. exact Hle.
Qed.

End ByRelevance.

Module Ranking := Sort ByRelevance.

(** Modelled from the spec: the optional relevance-score threshold. *)
Definition above (floor : option Q) (r : SearchResult) : bool :=
  match floor with
  | None => true
  | Some q => Qle_bool q (score r)
  end.

Section Search.

(** The store's measure of how similar a document is to a query: it comes
    from the embeddings, which the store computes. *)
Variable relevance : string -> Document -> Q.

(** Modelled from the spec: similarity search of the query client, from a
    query text, a result-count limit [k], an optional relevance-score
    floor and an optional metadata filter to a sequence of Search Results
    ordered by descending relevance.  Only what the store has embedded can
    be found, so a collection that is not ready gives partial results.
    The search itself runs in the store, behind [ZepVectorStore]; neither
    is among the sources.  The other search mode, re-ranking by maximal
    marginal relevance, is left out. *)
Definition similarity_search (c : Collection) (query : string) (k : nat)
    (floor : option Q) (filter : option where_clause) : list SearchResult :=
  firstn k
    (Ranking.sort
       (List.filter (above floor)
          (List.map (fun d => (d, relevance query d))
             (List.filter (satisfies filter) (embedded_documents c))))).

(** Modelled from the spec: the call
    [vs.asimilarity_search_with_relevance_scores(query, k=3)] of the
    notebook, a similarity search with neither floor nor filter that gives
    the documents with their scores. *)
Definition asimilarity_search_with_relevance_scores
    (c : Collection) (query : string) (k : nat) : list SearchResult :=
  similarity_search c query k None None.

(** Modelled from the spec: the call
    [vs.asearch(query, search_type="similarity", metadata=filter, k=3)] of
    the notebook, which gives the documents without their scores. *)
Definition asearch (c : Collection) (query : string)
    (filter : option where_clause) (k : nat) : list Document :=
  List.map fst (similarity_search c query k None filter).

End Search.

(** The document carries [source] under the key "source". *)
Definition has_source (source : string) (d : Document) : bool :=
  satisfies (Some (jsonpath_eq "source" source)) d.

End Query.

(** ** The searches the notebook records *)

Module QueryRecorded.
Import Query.

Definition babbage_url : string :=
  "https://www.gutenberg.org/cache/epub/71292/pg71292.txt".
Definition sherlock_url : string :=
  "https://www.gutenberg.org/files/48320/48320-0.txt".

(** A chunk of a book, named by its first line. *)
Definition chunk (first_line source : string) : Document :=
  mkDocument first_line [("source", source)].

Definition tables : Document :=
  chunk "Tables necessary to determine the places of the planets are not less"
        babbage_url.
Definition satellites : Document :=
  chunk "tabulate the motions of the four satellites of Jupiter, to predict the"
        babbage_url.
Definition notation : Document :=
  chunk "the scheme of notation thus applied, immediately suggested the"
        babbage_url.
Definition discovery : Document :=
  chunk "by that body to Mr Babbage:--'In no department of science, or of the"
        babbage_url.
Definition navigation : Document :=
  chunk "in all its relations; but above all, with Astronomy and Navigation. So"
        babbage_url.
Definition knowledge : Document :=
  chunk "possess all knowledge which is likely to be useful to him in his work,"
        sherlock_url.
Definition pipe : Document :=
  chunk "the light shining upon his strong-set aquiline features. So he sat as I"
        sherlock_url.
Definition books : Document :=
  chunk "I glanced at the books upon the table, and in spite of my ignorance"
        sherlock_url.

Definition solar_query : string := "what is the structure of our solar system?".
Definition astronomy_query : string := "Was he interested in astronomy?".

(** The collection once both books are embedded. *)
Definition library : Collection :=
  List.map (fun d => mkStored d true)
    [books; navigation; tables; knowledge; notation; pipe; satellites; discovery].

(** The scores the notebook prints for the solar-system query.  For the
    astronomy query it prints no scores: the ones here only reproduce the
    order of the printed results. *)
Definition scores : list (string * Document * Q) :=
  [ (solar_query, tables, 8998482592744614 # 10000000000000000);
    (solar_query, satellites, 8976143854195493 # 10000000000000000);
    (solar_query, notation, 889982614061763 # 1000000000000000);
    (astronomy_query, discovery, 9 # 10);
    (astronomy_query, knowledge, 8 # 10);
    (astronomy_query, navigation, 7 # 10);
    (astronomy_query, pipe, 6 # 10);
    (astronomy_query, books, 5 # 10) ]%Q.

Definition relevance (query : string) (d : Document) : Q :=
  match List.find (fun e => String.eqb (fst (fst e)) query
                            && String.eqb (page_content (snd (fst e)))
                                          (page_content d)) scores with
  | Some e => snd e
  | None => 0%Q
  end.

End QueryRecorded.

(** ** The output parser of the quickstart guide *)

Module OutputParser.

(** Python's [str.isspace] on one character.  A character here is a code
    point below 256; the whitespace among those is tab to carriage return,
    the four separators 28 to 31, the space, and the code points 133 and
    160. *)
Definition isspace (c : ascii) : bool :=
  let n := nat_of_ascii c in
  (Nat.leb 9 n && Nat.leb n 13) || (Nat.leb 28 n && Nat.leb n 32)
  || Nat.eqb n 133 || Nat.eqb n 160.

(** [s.lstrip()] *)
Fixpoint lstrip (s : string) : string :=
  match s with
  | EmptyString => EmptyString
  | String c s' => if isspace c then lstrip s' else s
  end.

(** [s.rstrip()] *)
Fixpoint rstrip (s : string) : string :=
  match s with
  | EmptyString => EmptyString
  | String c s' =>
      match rstrip s' with
      | EmptyString => if isspace c then EmptyString else String c EmptyString
      | r => String c r
      end
  end.

(** [s.strip()] *)
Definition strip (s : string) : string := rstrip (lstrip s).

(** Putting a character in front of the first piece. *)
Definition push (c : ascii) (pieces : list string) : list string :=
  match pieces with
  | [] => [String c EmptyString]
  | piece :: rest => String c piece :: rest
  end.

(** [s.split(", ")]: the pieces between the occurrences of the separator,
    found from left to right, without overlap. *)
Fixpoint split (s : string) : list string :=
  match s with
  | EmptyString => [EmptyString]
  | String c s' =>
      match s' with
      | String c' rest =>
          if Ascii.eqb c ","%char && Ascii.eqb c' " "%char
          then EmptyString :: split rest
          else push c (split s')
      | EmptyString => push c (split s')
      end
  end.

(** [CommaSeparatedListOutputParser().parse(text)]:
    [return text.strip().split(", ")] *)
Definition parse (text : string) : list string := split (strip text).

(** [", ".join(items)] *)
Fixpoint join (items : list string) : string :=
  match items with
  | [] => EmptyString
  | [item] => item
  | item :: rest => (item ++ ", " ++ join rest)%string
  end.

(** Every character of [s] is whitespace. *)
Fixpoint blank (s : string) : bool :=
  match s with
  | EmptyString => true
  | String c s' => isspace c && blank s'
  end.

(** [s] has the separator somewhere in it. *)
Definition has_separator (s : string) : Prop :=
  exists a b, s = (a ++ ", " ++ b)%string.

End OutputParser.

(** ** Loading the chat history, in the retriever notebook *)

Module ChatHistory.

(** [HumanMessage(content=...)] and [AIMessage(content=...)] *)
Variant BaseMessage : Type :=
| HumanMessage (content : string)
| AIMessage (content : string).

Definition content (m : BaseMessage) : string :=
  match m with
  | HumanMessage c => c
  | AIMessage c => c
  end.

Definition is_human (m : BaseMessage) : bool :=
  match m with
  | HumanMessage _ => true
  | AIMessage _ => false
  end.

(** What indexing a dict raises when the key is not there. *)
Variant exn : Type :=
| KeyError (key : string).

(** What the cell has done so far: the messages handed to the memory
    store, oldest first, and the seconds slept. *)
Record Kernel : Type := mkKernel {
  chat_memory : list BaseMessage;
  slept : nat
}.

(** A statement either completes or raises, and leaves the kernel as far
    as it got. *)
Definition py (A : Type) : Type := Kernel -> (A + exn) * Kernel.

Definition ret {A : Type} (a : A) : py A := fun k => (inl a, k).

Definition raise {A : Type} (e : exn) : py A := fun k => (inr e, k).

Definition bind {A B : Type} (m : py A) (f : A -> py B) : py B :=
  fun k =>
    match m k with
    | (inl a, k') => f a k'
    | (inr e, k') => (inr e, k')
    end.

(** [msg[key]], on a dict with string keys and values. *)
Definition getitem (msg : list (string * string)) (key : string) : py string :=
  match Query.lookup key msg with
  | Some v => ret v
  | None => raise (KeyError key)
  end.

(** [zep_memory.chat_memory.add_message(message)]; the store takes every
    message. *)
Definition add_message (message : BaseMessage) : py unit :=
  fun k => (inl tt, mkKernel (chat_memory k ++ [message]) (slept k)).

(** [time.sleep(seconds)] *)
Definition time_sleep (seconds : nat) : py unit :=
  fun k => (inl tt, mkKernel (chat_memory k) (slept k + seconds)).

(** [for x in l: body] *)
Fixpoint for_each {A : Type} (l : list A) (body : A -> py unit) : py unit :=
  match l with
  | [] => ret tt
  | x :: l' => bind (body x) (fun _ => for_each l' body)
  end.

(** The body of the loop: the condition [msg["role"] == "human"] is
    evaluated first, then the message of the chosen branch, then the
    call. *)
Definition add_one (msg : list (string * string)) : py unit :=
  bind (getitem msg "role") (fun role =>
    if String.eqb role "human"
    then bind (getitem msg "content") (fun c => add_message (HumanMessage c))
    else bind (getitem msg "content") (fun c => add_message (AIMessage c))).

(** The cell: the loop over [test_history], then [time.sleep(2)]. *)
Definition preload (test_history : list (list (string * string))) : py unit :=
  bind (for_each test_history add_one) (fun _ => time_sleep 2).

(** Whether the entry's role is exactly "human". *)
Definition role_is_human (msg : list (string * string)) : bool :=
  match Query.lookup "role" msg with
  | Some role => String.eqb role "human"
  | None => false
  end.

(** The entry has both keys the loop reads. *)
Definition well_formed (msg : list (string * string)) : Prop :=
  Query.lookup "role" msg <> None /\ Query.lookup "content" msg <> None.

(** The key whose absence the loop meets first. *)
Definition missing_key (msg : list (string * string)) : string :=
  match Query.lookup "role" msg with
  | None => "role"
  | Some _ => "content"
  end.

End ChatHistory.

(** ** The collection's name, in the vector-store notebook *)

Module Naming.

(** ["0123456789abcdef"[d]] *)
Definition hexdigit (d : N) : ascii :=
  if (d <? 10)%N then ascii_of_N (48 + d) else ascii_of_N (87 + d).

(** ['%0<width>x' % n], for [n] below [16 ^ width]. *)
Fixpoint hex_digits (width : nat) (n : N) : string :=
  match width with
  | 0 => EmptyString
  | S w => (hex_digits w (n / 16) ++ String (hexdigit (n mod 16)) EmptyString)%string
  end.

(** [uuid.hex], the 128-bit integer of a UUID as 32 hexadecimal digits. *)
Definition hex (uuid : N) : string := hex_digits 32 uuid.

(** [f"babbage{uuid4().hex}"], from the integer of the UUID drawn. *)
Definition collection_name (uuid : N) : string := ("babbage" ++ hex uuid)%string.

(** Python's [str.isalnum] on one character, for the ASCII range. *)
Definition isalnum (c : ascii) : bool :=
  let n := nat_of_ascii c in
  (Nat.leb 48 n && Nat.leb n 57) || (Nat.leb 65 n && Nat.leb n 90)
  || (Nat.leb 97 n && Nat.leb n 122).

End Naming.

(** ** The cells that call [wait_for_ready] *)

Module Caller.
Import Poller.

(** The notebook awaits [wait_for_ready(collection_name)] in two cells:
    after the collection is created and again after [aadd_documents].
    What the cells between them do to the store shows in the responses. *)
Definition wait_twice (collection_name : string) : itree zepE unit :=
  wait_for_ready collection_name ;; wait_for_ready collection_name.

Definition run_twice (responses : nat -> DocumentCollection)
    (collection_name : string) : itree outE (nat * unit) :=
  interp_state (h_store responses) (wait_twice collection_name) 0.

(** What [wait_for_ready] may show once it is connected: fetches of the
    collection it was called for, printed lines, and sleeps of one
    second. *)
Definition of_the_loop (collection_name : string) (o : obs) : Prop :=
  match o with
  | Connected _ _ => False
  | Fetched n => n = collection_name
  | Printed _ => True
  | Slept seconds => seconds = 1
  end.

(** How many times a run has connected. *)
Definition connections (l : list obs) : nat :=
  length (List.filter
            (fun o => match o with Connected _ _ => true | _ => false end) l).

(** Python's [str.isdigit] on one character, for the ASCII range. *)
Definition isdigit (c : ascii) : bool :=
  let n := nat_of_ascii c in
  Nat.leb 48 n && Nat.leb n 57.

(** Every character of [s] is a digit. *)
Fixpoint digits (s : string) : bool :=
  match s with
  | EmptyString => true
  | String c s' => isdigit c && digits s'
  end.

End Caller.

(** ** Reading the standard output *)

Module Reader.

(** What is left of [s] after the leading [p], when [s] starts with it. *)
Fixpoint after (p s : string) : option string :=
  match p, s with
  | EmptyString, _ => Some s
  | String a p', String b s' => if Ascii.eqb a b then after p' s' else None
  | String _ _, EmptyString => None
  end.

(** [s] cut at its first [c]: what stands before it and what follows. *)
Fixpoint cut (c : ascii) (s : string) : option (string * string) :=
  match s with
  | EmptyString => None
  | String x s' =>
      if Ascii.eqb x c then Some (EmptyString, s')
      else match cut c s' with
           | Some (a, r) => Some (String x a, r)
           | None => None
           end
  end.

(** The number a decimal numeral stands for.  The empty string and a
    string with a character that is no digit stand for none. *)
Definition number (s : string) : option nat :=
  match s with
  | EmptyString => None
  | String _ _ => option_map Nat.of_uint (NilEmpty.uint_of_string s)
  end.

(** What someone who reads the output finds in a line: the two numbers of
    ["Embedding status: <embedded>/<total> documents embedded"], and
    nothing in a line of another form. *)
Definition counts_shown (line : string) : option (nat * nat) :=
  match after "Embedding status: " line with
  | None => None
  | Some rest =>
      match cut "/" rest with
      | None => None
      | Some (embedded, rest') =>
          match cut " " rest' with
          | None => None
          | Some (total, tail) =>
              if String.eqb tail "documents embedded"
              then match number embedded, number total with
                   | Some e, Some t => Some (e, t)
                   | _, _ => None
                   end
              else None
          end
      end
  end.

End Reader.

(** * Proofs *)

(** ** Strings *)

Module StringFacts.

Lemma app_empty_r (s : string) : (s ++ "")%string = s.
Proof. induction s; cbn; congruence. Qed.

Lemma app_assoc_string (a b c : string) :
  ((a ++ b) ++ c)%string = (a ++ (b ++ c))%string.
Proof. induction a; cbn; congruence. Qed.

Lemma length_app_string (a b : string) :
  String.length (a ++ b) = String.length a + String.length b.
Proof. induction a as [|c a IH]; cbn; [reflexivity | now rewrite IH]. Qed.

Lemma chars_app (a b : string) :
  list_ascii_of_string (a ++ b)
  = list_ascii_of_string a ++ list_ascii_of_string b.
Proof. induction a as [|c a IH]; cbn; [reflexivity | now rewrite IH]. Qed.

Lemma app_inv_head_string (p a b : string) :
  (p ++ a)%string = (p ++ b)%string -> a = b.
Proof.
  induction p as [|c p IH]; cbn; intros H; [exact H|].
  injection H as H. apply IH, H.
Qed.

Lemma app_last_inj (a b : string) (c d : ascii) :
  (a ++ String c "")%string = (b ++ String d "")%string -> a = b /\ c = d.
Proof.
  revert b. induction a as [|x a IH]; intros [|y b] H; cbn in H.
  - injection H as ->. split; reflexivity.
  - injection H as _ H. destruct b; discriminate.
  - injection H as _ H. destruct a; discriminate.
  - injection H as -> H. destruct (IH b H) as [-> ->]. split; reflexivity.
Qed.

End StringFacts.

(** ** The poller *)

Module PollerFacts.
Import Poller.

Lemma is_ready_status (c : DocumentCollection) :
  is_ready c = true <-> status c = "ready".
Proof. unfold is_ready. apply String.eqb_eq. Qed.

Lemma not_ready_status (c : DocumentCollection) :
  is_ready c = false <-> status c <> "ready".
Proof. unfold is_ready. apply String.eqb_neq. Qed.

(** *** Shown prefixes *)

Lemma say_app {R : Type} (l1 l2 : list obs) (u : itree outE R) :
  say (l1 ++ l2) u = say l1 (say l2 u).
Proof.
  induction l1 as [|o l1 IH]; cbn; [reflexivity | now rewrite IH].
Qed.

#[global] Instance say_eutt {R : Type} (l : list obs) :
  Proper (eutt eq ==> eutt eq) (@say R l).
Proof.
  intros u v Huv. induction l as [|o l IH]; cbn.
  - exact Huv.
  - apply eqit_Vis. intros _. exact IH.
Qed.

(** Two trees that start by showing something show the same thing and go
    on alike.  The answer type of the second event is kept general, so that
    the equality between the two answer types can be taken apart. *)
Lemma out_eq_inv {R : Type} (o1 : obs) (k1 : unit -> itree outE R)
      (X : Type) (p : @eq Type unit X) (e2 : outE X) (k2 : X -> itree outE R) :
  eqeq outE p (Out o1) e2 ->
  pweqeq (eutt eq) p k1 k2 ->
  match e2 in outE T return (T -> itree outE R) -> Prop with
  | Out o2 => fun k => o1 = o2 /\ k1 tt ≈ k tt
  end k2.
Proof.
  destruct p. cbn. intros <- Hk. split; [reflexivity | apply Hk].
Qed.

Lemma vis_out_inv {R : Type} (o1 o2 : obs) (k1 k2 : unit -> itree outE R) :
  Vis (Out o1) k1 ≈ Vis (Out o2) k2 -> o1 = o2 /\ k1 tt ≈ k2 tt.
Proof.
  intros H. apply eqit_inv_Vis_weak in H. destruct H as (p & He & Hk).
  exact (out_eq_inv o1 k1 unit p (Out o2) k2 He Hk).
Qed.

Lemma ret_vis_abs {R : Type} (r : R) (o : obs) (k : unit -> itree outE R) :
  Ret r ≈ Vis (Out o) k -> False.
Proof. intros H. apply eqit_inv in H. exact H. Qed.

(** A shorter shown prefix of a tree is a prefix of a longer one. *)
Lemma say_prefix {R : Type} (l1 l2 : list obs) (u1 u2 : itree outE R) :
  say l1 u1 ≈ say l2 u2 ->
  length l1 <= length l2 ->
  exists l', l2 = l1 ++ l' /\ u1 ≈ say l' u2.
Proof.
  revert l2. induction l1 as [|o1 l1 IH]; intros l2 H Hlen.
  - exists l2. split; [reflexivity | exact H].
  - destruct l2 as [|o2 l2]; [cbn in Hlen; lia |].
    cbn in H. apply vis_out_inv in H. destruct H as [<- H].
    destruct (IH l2 H) as (l' & -> & Hu); [cbn in Hlen; lia |].
    exists l'. split; [reflexivity | exact Hu].
Qed.

(** A tree that returns after showing [l1] shows nothing beyond [l1]. *)
Lemma say_ret_bound {R : Type} (l1 l2 : list obs) (r : R) (u : itree outE R) :
  say l1 (Ret r) ≈ say l2 u -> length l2 <= length l1.
Proof.
  intros H. destruct (le_lt_dec (length l2) (length l1)) as [|Hlt]; [assumption|].
  destruct (say_prefix l1 l2 (Ret r) u H) as (l' & -> & Hu); [lia |].
  destruct l' as [|o l'].
  - rewrite app_nil_r in Hlt. lia.
  - cbn in Hu. apply ret_vis_abs in Hu. contradiction.
Qed.

Lemma say_ret_prefix {R : Type} (l1 l2 : list obs) (r : R) (u : itree outE R) :
  say l1 (Ret r) ≈ say l2 u -> exists l', l1 = l2 ++ l' /\ u ≈ say l' (Ret r).
Proof.
  intros H. pose proof (say_ret_bound l1 l2 r u H) as Hlen.
  symmetry in H. destruct (say_prefix l2 l1 u (Ret r) H Hlen) as (l' & -> & Hu).
  exists l'. split; [reflexivity | exact Hu].
Qed.

(** What a tree shows before it returns, and what it returns, are unique. *)
Lemma say_ret_inj {R : Type} (l1 l2 : list obs) (r1 r2 : R) :
  say l1 (Ret r1 : itree outE R) ≈ say l2 (Ret r2) -> l1 = l2 /\ r1 = r2.
Proof.
  intros H. destruct (say_ret_prefix l1 l2 r1 (Ret r2) H) as (l' & -> & Hu).
  destruct l' as [|o l'].
  - cbn in Hu. apply eutt_inv_Ret in Hu. subst. now rewrite app_nil_r.
  - cbn in Hu. apply ret_vis_abs in Hu. contradiction.
Qed.

(** What [observe_for] sees of a tree that returned is what the tree
    shows before it returns. *)
Lemma observe_for_returns {R : Type} (fuel : nat) (t : itree outE R)
      (l : list obs) (r : R) :
  observe_for fuel t = (l, Some r) -> t ≈ say l (Ret r).
Proof.
  revert t l; induction fuel as [|fuel IH]; intros t l H; [discriminate|].
  cbn [observe_for] in H. rewrite (itree_eta t).
  destruct (observe t) as [r0 | t' | X e k].
  - injection H as <- <-. reflexivity.
  - rewrite tau_eutt. apply IH, H.
  - destruct e as [o]. cbn [shown fst snd] in H.
    destruct (observe_for fuel (k tt)) as [l' r'] eqn:Hk.
    injection H as <- ->. cbn [say]. apply eqit_Vis. intros []. apply IH, Hk.
Qed.

(** *** One iteration, and the loop *)

Section Loop.
Variable responses : nat -> DocumentCollection.
Variable client : Client.
Variable collection_name : string.

(** One iteration fetches, prints and sleeps, in this order and whatever
    the status is; the status only decides what the iteration hands back. *)
Lemma poll_run (s : nat) :
  interp_state (h_store responses) (poll client collection_name) s
  ≈ say (iteration responses collection_name s)
        (Ret (S s, if is_ready (responses s) then inr tt else inl tt)).
Proof.
  unfold poll, iteration. cbn [say].
  rewrite interp_state_bind, interp_state_trigger. cbn [h_store].
  rewrite bind_vis. apply eqit_Vis. intros _. rewrite bind_ret_l. cbn [fst snd].
  rewrite interp_state_bind, interp_state_trigger. cbn [h_store].
  rewrite bind_vis. apply eqit_Vis. intros _. rewrite bind_ret_l. cbn [fst snd].
  rewrite interp_state_bind, interp_state_trigger. cbn [h_store].
  rewrite bind_vis. apply eqit_Vis. intros _. rewrite bind_ret_l. cbn [fst snd].
  destruct (is_ready (responses s)); rewrite interp_state_ret; reflexivity.
Qed.

Lemma bind_say {R S : Type} (l : list obs) (u : itree outE R)
      (k : R -> itree outE S) :
  ITree.bind (say l u) k ≈ say l (ITree.bind u k).
Proof.
  induction l as [|o l IH]; cbn [say].
  - reflexivity.
  - rewrite bind_vis. apply eqit_Vis. intros _. exact IH.
Qed.

Lemma loop_unfold (s : nat) :
  interp_state (h_store responses) (polling_loop client collection_name) s
  ≈ say (iteration responses collection_name s)
        (if is_ready (responses s)
         then Ret (S s, tt)
         else interp_state (h_store responses)
                (polling_loop client collection_name) (S s)).
Proof.
  unfold polling_loop at 1. rewrite unfold_iter.
  rewrite interp_state_bind, poll_run, bind_say, bind_ret_l. cbn [fst snd].
  apply say_eutt.
  destruct (is_ready (responses s)).
  - rewrite interp_state_ret. reflexivity.
  - rewrite interp_state_tau, tau_eutt. reflexivity.
Qed.

Lemma iterations_S (from k : nat) :
  iterations responses collection_name from (S k)
  = iterations responses collection_name from k
    ++ iteration responses collection_name (from + k).
Proof.
  unfold iterations. rewrite seq_S, flat_map_app. reflexivity.
Qed.

(** While no poll reports "ready", the loop goes round. *)
Lemma loop_skip (k s : nat) :
  (forall i, i < k -> is_ready (responses (s + i)) = false) ->
  interp_state (h_store responses) (polling_loop client collection_name) s
  ≈ say (iterations responses collection_name s k)
        (interp_state (h_store responses)
           (polling_loop client collection_name) (s + k)).
Proof.
  induction k as [|k IH]; intros Hk.
  - rewrite Nat.add_0_r. reflexivity.
  - rewrite IH by (intros i Hi; apply Hk; lia).
    rewrite iterations_S, say_app. apply say_eutt.
    rewrite loop_unfold, (Hk k) by lia.
    replace (s + S k) with (S (s + k)) by lia. reflexivity.
Qed.

(** The loop is left at the first poll that reports "ready", after that
    poll's iteration is complete. *)
Lemma loop_stops (n s : nat) :
  (forall i, i < n -> is_ready (responses (s + i)) = false) ->
  is_ready (responses (s + n)) = true ->
  interp_state (h_store responses) (polling_loop client collection_name) s
  ≈ say (iterations responses collection_name s (S n)) (Ret (S (s + n), tt)).
Proof.
  intros Hlt Hn.
  rewrite (loop_skip n s Hlt), iterations_S, say_app. apply say_eutt.
  rewrite loop_unfold, Hn. reflexivity.
Qed.

End Loop.

(** *** Whole runs *)

Section Runs.
Variable responses : nat -> DocumentCollection.
Variable collection_name : string.

Lemma run_loop :
  run responses collection_name
  ≈ say [Connected ZEP_API_URL ZEP_API_KEY]
        (interp_state (h_store responses)
           (polling_loop (mkClient ZEP_API_URL ZEP_API_KEY) collection_name) 0).
Proof.
  unfold run, wait_for_ready. cbn [say].
  rewrite interp_state_bind, interp_state_trigger. cbn [h_store].
  rewrite bind_vis. apply eqit_Vis. intros _. rewrite bind_ret_l. reflexivity.
Qed.

(** As long as no poll reported "ready", the run is in the loop. *)
Lemma run_skip (k : nat) :
  (forall i, i < k -> is_ready (responses i) = false) ->
  run responses collection_name
  ≈ say (trace responses collection_name k)
        (interp_state (h_store responses)
           (polling_loop (mkClient ZEP_API_URL ZEP_API_KEY) collection_name) k).
Proof.
  intros Hk. rewrite run_loop. unfold trace. cbn [say].
  apply eqit_Vis. intros _. apply (loop_skip responses _ collection_name k 0 Hk).
Qed.

Lemma run_stops (n : nat) :
  first_ready responses n ->
  run responses collection_name
  ≈ say (trace responses collection_name (S n)) (Ret (S n, tt)).
Proof.
  intros [Hn Hlt]. rewrite run_loop. unfold trace. cbn [say].
  apply eqit_Vis. intros _.
  apply (loop_stops responses _ collection_name n 0 Hlt Hn).
Qed.

(** *** Counting what a run shows *)

Lemma iterations_cons (from k : nat) :
  iterations responses collection_name from (S k)
  = iteration responses collection_name from
    ++ iterations responses collection_name (S from) k.
Proof. reflexivity. Qed.

Lemma length_iterations (from k : nat) :
  length (iterations responses collection_name from k) = 3 * k.
Proof.
  revert from; induction k as [|k IH]; intros from; [reflexivity|].
  rewrite iterations_cons, length_app, IH. cbn. lia.
Qed.

Lemma length_trace (k : nat) :
  length (trace responses collection_name k) = 1 + 3 * k.
Proof. unfold trace. cbn [length]. now rewrite length_iterations. Qed.

Lemma fetches_app (l1 l2 : list obs) :
  fetches (l1 ++ l2) = fetches l1 + fetches l2.
Proof. unfold fetches. now rewrite filter_app, length_app. Qed.

Lemma printed_app (l1 l2 : list obs) :
  printed (l1 ++ l2) = printed l1 ++ printed l2.
Proof. unfold printed. apply flat_map_app. Qed.

Lemma seconds_slept_app (l1 l2 : list obs) :
  seconds_slept (l1 ++ l2) = seconds_slept l1 + seconds_slept l2.
Proof. unfold seconds_slept. now rewrite map_app, list_sum_app. Qed.

Lemma fetches_iterations (from k : nat) :
  fetches (iterations responses collection_name from k) = k.
Proof.
  revert from; induction k as [|k IH]; intros from; [reflexivity|].
  rewrite iterations_cons, fetches_app, IH. reflexivity.
Qed.

Lemma printed_iterations (from k : nat) :
  printed (iterations responses collection_name from k)
  = List.map (fun i => progress_line (responses i)) (seq from k).
Proof.
  revert from; induction k as [|k IH]; intros from; [reflexivity|].
  rewrite iterations_cons, printed_app, IH. reflexivity.
Qed.

Lemma seconds_slept_iterations (from k : nat) :
  seconds_slept (iterations responses collection_name from k) = k.
Proof.
  revert from; induction k as [|k IH]; intros from; [reflexivity|].
  rewrite iterations_cons, seconds_slept_app, IH. reflexivity.
Qed.

Lemma fetches_trace (k : nat) :
  fetches (trace responses collection_name k) = k.
Proof.
  unfold trace. change (Connected ZEP_API_URL ZEP_API_KEY :: ?l)
    with ([Connected ZEP_API_URL ZEP_API_KEY] ++ l).
  rewrite fetches_app, fetches_iterations. reflexivity.
Qed.

Lemma printed_trace (k : nat) :
  printed (trace responses collection_name k)
  = List.map (fun i => progress_line (responses i)) (seq 0 k).
Proof. unfold trace. cbn [printed flat_map app]. apply printed_iterations. Qed.

Lemma seconds_slept_trace (k : nat) :
  seconds_slept (trace responses collection_name k) = k.
Proof.
  unfold trace. change (Connected ZEP_API_URL ZEP_API_KEY :: ?l)
    with ([Connected ZEP_API_URL ZEP_API_KEY] ++ l).
  rewrite seconds_slept_app, seconds_slept_iterations. reflexivity.
Qed.

Lemma trace_S (k : nat) :
  trace responses collection_name (S k)
  = trace responses collection_name k ++ iteration responses collection_name k.
Proof. unfold trace. now rewrite iterations_S. Qed.

(** *** Looking for the first "ready" *)

Lemma ready_before (m : nat) :
  (exists n, n < m /\ first_ready responses n)
  \/ (forall i, i < m -> is_ready (responses i) = false).
Proof.
  induction m as [|m [(n & Hn & Hfirst) | Hnone]].
  - right. intros i Hi. lia.
  - left. exists n. split; [lia | exact Hfirst].
  - destruct (is_ready (responses m)) eqn:Hm.
    + left. exists m. split; [lia | split; assumption].
    + right. intros i Hi.
      destruct (Nat.eq_dec i m) as [-> | Hne]; [exact Hm | apply Hnone; lia].
Qed.

Lemma first_ready_exists (n : nat) :
  is_ready (responses n) = true -> exists n0, n0 <= n /\ first_ready responses n0.
Proof.
  intros Hn. destruct (ready_before (S n)) as [(n0 & Hlt & Hfirst) | Hnone].
  - exists n0. split; [lia | exact Hfirst].
  - rewrite Hnone in Hn by lia. discriminate.
Qed.

Lemma first_ready_unique (n m : nat) :
  first_ready responses n -> first_ready responses m -> n = m.
Proof.
  intros [Hn Hltn] [Hm Hltm].
  destruct (Nat.lt_trichotomy n m) as [Hlt | [Heq | Hgt]]; [|exact Heq|].
  - rewrite (Hltm n Hlt) in Hn. discriminate.
  - rewrite (Hltn m Hgt) in Hm. discriminate.
Qed.

(** *** How runs end, and how far they get *)

(** A run that returns does so right after the iteration of the first
    "ready" poll. *)
Lemma returns_inv (l : list obs) :
  returns responses collection_name l ->
  exists n, first_ready responses n /\ l = trace responses collection_name (S n).
Proof.
  intros [s H].
  destruct (ready_before (length l)) as [(n & _ & Hfirst) | Hnone].
  - exists n. split; [exact Hfirst|].
    rewrite (run_stops n Hfirst) in H. symmetry in H.
    apply say_ret_inj in H. destruct H as [H _]. exact H.
  - exfalso. rewrite (run_skip (length l) Hnone) in H. symmetry in H.
    apply say_ret_bound in H. rewrite length_trace in H. lia.
Qed.

Lemma returns_intro (n : nat) :
  first_ready responses n ->
  returns responses collection_name (trace responses collection_name (S n)).
Proof. intros H. exists (S n). apply run_stops, H. Qed.

(** The run goes through its [k]-th iteration when none of the polls
    before it reported "ready". *)
Lemma emits_trace (k : nat) :
  (forall i, S i < k -> is_ready (responses i) = false) ->
  emits responses collection_name (trace responses collection_name k).
Proof.
  intros Hk. destruct k as [|k].
  - eexists. apply (run_skip 0). intros i Hi. lia.
  - eexists. rewrite (run_skip k) by (intros i Hi; apply Hk; lia).
    rewrite trace_S, say_app. apply say_eutt. apply loop_unfold.
Qed.

Lemma emits_prefix (l l' : list obs) :
  emits responses collection_name (l ++ l') -> emits responses collection_name l.
Proof. intros [u H]. exists (say l' u). now rewrite <- say_app. Qed.

(** Whatever a run shows is the beginning of the trace of some number of
    iterations, all but the last of which saw a status other than
    "ready". *)
Lemma emits_inv (l : list obs) :
  emits responses collection_name l ->
  exists k l',
    trace responses collection_name k = l ++ l'
    /\ forall i, S i < k -> is_ready (responses i) = false.
Proof.
  intros [u H].
  destruct (ready_before (length l)) as [(n & _ & Hfirst) | Hnone].
  - rewrite (run_stops n Hfirst) in H.
    destruct (say_ret_prefix _ _ _ _ H) as (l' & Hl' & _).
    exists (S n), l'. split; [exact Hl'|].
    intros i Hi. apply Hfirst. lia.
  - rewrite (run_skip (length l) Hnone) in H. symmetry in H.
    destruct (say_prefix _ _ _ _ H) as (l' & Hl' & _).
    { rewrite length_trace. lia. }
    exists (length l), l'. split; [exact Hl'|].
    intros i Hi. apply Hnone. lia.
Qed.





Lemma trace_inj (k k' : nat) :
  trace responses collection_name k = trace responses collection_name k' ->
  k = k'.
Proof.
  intros H. apply (f_equal (@length obs)) in H. rewrite !length_trace in H. lia.
Qed.

Lemma returns_trace_iff (k : nat) :
  returns responses collection_name (trace responses collection_name k)
  <-> exists n, k = S n /\ first_ready responses n.
Proof.
  split.
  - intros H. apply returns_inv in H. destruct H as (n & Hfirst & Hk).
    exists n. split; [apply trace_inj, Hk | exact Hfirst].
  - intros (n & -> & Hfirst). apply returns_intro, Hfirst.
Qed.

Lemma emits_trace_iff (k : nat) :
  emits responses collection_name (trace responses collection_name k)
  <-> forall i, S i < k -> is_ready (responses i) = false.
Proof.
  split; [|apply emits_trace].
  intros H i Hi. apply emits_inv in H. destruct H as (k' & l' & Hk' & Hlt).
  apply Hlt. apply (f_equal (@length obs)) in Hk'.
  rewrite length_app, !length_trace in Hk'. lia.
Qed.

End Runs.

(** The loop looks at nothing but the status. *)
Lemma first_ready_status (responses1 responses2 : nat -> DocumentCollection) :
  (forall i, status (responses1 i) = status (responses2 i)) ->
  forall n, first_ready responses1 n -> first_ready responses2 n.
Proof.
  intros Hsame n [Hn Hlt]. unfold first_ready, is_ready in *.
  split.
  - now rewrite <- Hsame.
  - intros i Hi. rewrite <- Hsame. apply Hlt, Hi.
Qed.

End PollerFacts.

(** *** The recorded waits, run *)

Module RecordedFacts.
Import Poller Recorded.

Example first_wait_stdout :
  printed (trace first_wait "babbage" 3)
  = ["Embedding status: 0/402 documents embedded";
     "Embedding status: 0/402 documents embedded";
     "Embedding status: 402/402 documents embedded"].
Proof. vm_compute. reflexivity. Qed.

Example second_wait_stdout :
  printed (trace second_wait "babbage" 11)
  = ["Embedding status: 402/1692 documents embedded";
     "Embedding status: 402/1692 documents embedded";
     "Embedding status: 552/1692 documents embedded";
     "Embedding status: 702/1692 documents embedded";
     "Embedding status: 1002/1692 documents embedded";
     "Embedding status: 1002/1692 documents embedded";
     "Embedding status: 1152/1692 documents embedded";
     "Embedding status: 1302/1692 documents embedded";
     "Embedding status: 1452/1692 documents embedded";
     "Embedding status: 1602/1692 documents embedded";
     "Embedding status: 1692/1692 documents embedded"].
Proof. vm_compute. reflexivity. Qed.

(** The runs themselves, looked at for a hundred steps. *)
Example first_wait_run :
  observe_for 100 (run first_wait "babbage")
  = (trace first_wait "babbage" 3, Some (3, tt)).
Proof. vm_compute. reflexivity. Qed.

Example second_wait_run :
  observe_for 100 (run second_wait "babbage")
  = (trace second_wait "babbage" 11, Some (11, tt)).
Proof. vm_compute. reflexivity. Qed.

Example stuck_run :
  observe_for 100 (run stuck "babbage")
  = (trace stuck "babbage" 14, None).
Proof. vm_compute. reflexivity. Qed.

Example early_run :
  observe_for 100 (run early "babbage")
  = ([Connected ZEP_API_URL ZEP_API_KEY; Fetched "babbage";
      Printed "Embedding status: 0/402 documents embedded"; Slept 1],
     Some (1, tt)).
Proof. vm_compute. reflexivity. Qed.

Lemma first_wait_first_ready : first_ready first_wait 2.
Proof.
  split; [reflexivity|].
  intros [|[|i]] Hi; [reflexivity | reflexivity | lia].
Defined.

Lemma second_wait_first_ready : first_ready second_wait 10.
Proof.
  split; [reflexivity|].
  intros i Hi. do 10 (destruct i as [|i]; [reflexivity|]). lia.
Defined.

(** The same, once from the run itself and once from where the first
    "ready" stands. *)
Example first_wait_returns :
  returns first_wait "babbage" (trace first_wait "babbage" 3).
Proof.
  exists 3. apply (PollerFacts.observe_for_returns 100). exact first_wait_run.
Qed.

Example second_wait_returns :
  returns second_wait "babbage" (trace second_wait "babbage" 11).
Proof. apply PollerFacts.returns_intro, second_wait_first_ready. Qed.

End RecordedFacts.

(** ** The progress line, read back *)

Module ProgressLineFacts.
Import Poller Caller StringFacts.

(** Digits up to a character that is no digit: the digits are read off
    without doubt. *)
Lemma digits_then (c : ascii) (a1 a2 r1 r2 : string) :
  isdigit c = false -> digits a1 = true -> digits a2 = true ->
  (a1 ++ String c r1)%string = (a2 ++ String c r2)%string ->
  a1 = a2 /\ r1 = r2.
Proof.
  intros Hc. revert a2. induction a1 as [|x a1 IH]; intros [|y a2] H1 H2 H;
    cbn in H, H1, H2.
  - injection H as ->. split; reflexivity.
  - injection H as -> _. apply andb_true_iff in H2. destruct H2 as [H2 _].
    congruence.
  - injection H as -> _. apply andb_true_iff in H1. destruct H1 as [H1 _].
    congruence.
  - injection H as -> H. apply andb_true_iff in H1, H2.
    destruct (IH a2) as [-> ->]; [apply H1 | apply H2 | exact H|].
    split; reflexivity.
Qed.

Lemma digits_string_of_uint (d : Decimal.uint) :
  digits (NilEmpty.string_of_uint d) = true.
Proof. induction d; cbn; try reflexivity; exact IHd. Qed.

Lemma digits_str (n : nat) : digits (str n) = true.
Proof. apply digits_string_of_uint. Qed.

Lemma str_inj (n m : nat) : str n = str m -> n = m.
Proof.
  unfold str. intros H.
  apply (f_equal NilEmpty.uint_of_string) in H. rewrite !NilEmpty.usu in H.
  injection H as H. apply (f_equal Nat.of_uint) in H.
  now rewrite !Unsigned.of_to in H.
Qed.







Example counts_shown_recorded :
  Reader.counts_shown "Embedding status: 552/1692 documents embedded"
  = Some (552, 1692).
Proof. reflexivity. Qed.

(** A line without numbers shows no counts. *)
Example counts_shown_without_numbers :
  Reader.counts_shown "Embedding status: / documents embedded" = None.
Proof. reflexivity. Qed.

End ProgressLineFacts.

(** ** What [wait_for_ready] guarantees *)

Module WaitForReady.
Import Poller PollerFacts ProgressLineFacts.

Section Properties.
Variable responses : nat -> DocumentCollection.
Variable collection_name : string.

(** C1.  When the embedded count grows monotonically, eventually equals the
    document count, and the status is "ready" exactly when the two are
    equal, the run returns right after the iteration of the first poll at
    which they are equal, which is the first poll that reports "ready": it
    has made the fetches up to that one and no other, and there is no
    other way for it to return, neither earlier nor later. *)
Theorem returns_at_first_ready :
  (forall i, status (responses i) = "ready"
             <-> document_embedded_count (responses i)
                 = document_count (responses i)) ->
  (forall i, document_embedded_count (responses i)
             <= document_embedded_count (responses (S i))) ->
  (exists n, document_embedded_count (responses n)
             = document_count (responses n)) ->
  exists n,
    (document_embedded_count (responses n) = document_count (responses n)
     /\ forall i, i < n ->
          document_embedded_count (responses i) <> document_count (responses i))
    /\ (status (responses n) = "ready"
        /\ forall i, i < n -> status (responses i) <> "ready")
    /\ returns responses collection_name
         (trace responses collection_name (S n))
    /\ fetches (trace responses collection_name (S n)) = S n
    /\ forall l, returns responses collection_name l ->
         l = trace responses collection_name (S n).
Proof.
  intros Hstatus _ [m Hm].
  apply Hstatus, is_ready_status in Hm.
  destruct (first_ready_exists responses m Hm) as (n & _ & Hfirst).
  pose proof Hfirst as [Hn Hlt].
  exists n. repeat split.
  - apply Hstatus, is_ready_status, Hn.
  - intros i Hi Heq. apply Hstatus, is_ready_status in Heq.
    rewrite (Hlt i Hi) in Heq. discriminate.
  - apply is_ready_status, Hn.
  - intros i Hi. apply not_ready_status, Hlt, Hi.
  - apply returns_intro, Hfirst.
  - apply fetches_trace.
  - intros l Hl. apply returns_inv in Hl. destruct Hl as (n' & Hfirst' & ->).
    now rewrite (first_ready_unique responses n' n Hfirst' Hfirst).
Qed.

(** C2.  Under the store's invariant that the status is "ready" only when
    the two counts are equal, a poll whose response has fewer embedded
    documents than documents is never the poll at which the run returns,
    and once that poll is made the run goes on to complete its iteration
    and to fetch the status again. *)
Theorem no_return_while_embedding (i : nat) :
  (forall j, status (responses j) = "ready" ->
             document_embedded_count (responses j)
             = document_count (responses j)) ->
  document_embedded_count (responses i) < document_count (responses i) ->
  (forall l, returns responses collection_name l -> fetches l <> S i)
  /\ (emits responses collection_name
        (trace responses collection_name i ++ [Fetched collection_name]) ->
      emits responses collection_name
        (trace responses collection_name (S i) ++ [Fetched collection_name])).
Proof.
  intros Hinv Hi.
  assert (Hnot : is_ready (responses i) = false).
  { apply not_ready_status. intros Hr. apply Hinv in Hr. lia. }
  split.
  - intros l Hl Hf. apply returns_inv in Hl. destruct Hl as (n & [Hn _] & ->).
    rewrite fetches_trace in Hf. injection Hf as ->.
    rewrite Hnot in Hn. discriminate.
  - intros He. apply emits_inv in He. destruct He as (k & l' & Hk & Hlt).
    assert (Hik : i < k).
    { apply (f_equal (@length obs)) in Hk.
      rewrite !length_app, !length_trace in Hk. cbn in Hk. lia. }
    apply (emits_prefix responses collection_name _
             [Printed (progress_line (responses (S i))); Slept 1]).
    rewrite <- app_assoc.
    change (emits responses collection_name
              (trace responses collection_name (S i)
               ++ iteration responses collection_name (S i))).
    rewrite <- trace_S. apply emits_trace.
    intros j Hj. destruct (Nat.eq_dec j i) as [-> | Hne]; [exact Hnot|].
    apply Hlt. lia.
Qed.

(** C5.  The loop has no retry cap and no timeout.  A run returns exactly
    when some poll reports "ready"; when none ever does, it never returns,
    and for every [k] it goes through [k] iterations, so through [k]
    fetches. *)
Theorem no_retry_cap :
  ((exists l, returns responses collection_name l)
   <-> (exists n, status (responses n) = "ready"))
  /\ ((forall n, status (responses n) <> "ready") ->
      never_returns responses collection_name
      /\ forall k,
           emits responses collection_name (trace responses collection_name k)
           /\ fetches (trace responses collection_name k) = k).
Proof.
  split; [split|].
  - intros [l Hl]. apply returns_inv in Hl. destruct Hl as (n & [Hn _] & _).
    exists n. apply is_ready_status, Hn.
  - intros [n Hn]. apply is_ready_status in Hn.
    destruct (first_ready_exists responses n Hn) as (n0 & _ & Hfirst).
    eexists. apply returns_intro, Hfirst.
  - intros Hnever. split.
    + intros l Hl. apply returns_inv in Hl. destruct Hl as (n & [Hn _] & _).
      apply (Hnever n), is_ready_status, Hn.
    + intros k. split; [|apply fetches_trace].
      apply emits_trace. intros i _. apply not_ready_status, Hnever.
Qed.


(** C10.  An iteration fetches, prints its line and sleeps one second
    whatever the status, which only decides what comes next.  So a run
    that returns has printed and slept at least once, the last things it
    did being the line and the sleep of the poll that reported "ready";
    when the very first response is "ready" the run still fetches, prints
    and sleeps once. *)
Theorem prints_and_sleeps_before_testing :
  (forall client s,
      interp_state (h_store responses) (poll client collection_name) s
      ≈ say [Fetched collection_name;
             Printed (progress_line (responses s)); Slept 1]
            (Ret (S s, if is_ready (responses s) then inr tt else inl tt)))
  /\ (forall l, returns responses collection_name l ->
        1 <= length (printed l)
        /\ 1 <= seconds_slept l
        /\ exists l0 n,
             l = l0 ++ [Fetched collection_name;
                        Printed (progress_line (responses n)); Slept 1]
             /\ status (responses n) = "ready")
  /\ (status (responses 0) = "ready" ->
      returns responses collection_name
        [Connected ZEP_API_URL ZEP_API_KEY; Fetched collection_name;
         Printed (progress_line (responses 0)); Slept 1]).
Proof.
  split; [|split].
  - intros client s. apply poll_run.
  - intros l Hl. apply returns_inv in Hl. destruct Hl as (n & [Hn _] & ->).
    rewrite printed_trace, length_map, length_seq, seconds_slept_trace.
    repeat split; try lia.
    exists (trace responses collection_name n), n. split.
    + apply trace_S.
    + apply is_ready_status, Hn.
  - intros H0. apply is_ready_status in H0.
    apply (returns_intro responses collection_name 0).
    split; [exact H0 | intros i Hi; lia].
Qed.

End Properties.

(** C9.  Whether and when the run returns depends on the statuses only.
    Two sequences of responses with the same statuses, whatever their
    counts, give runs that go through the same iterations, return after
    the same number of fetches or both never return.  In particular the
    first response with status "ready" ends the run even when its embedded
    count is below its document count. *)
Theorem termination_depends_on_status_only
    (responses1 responses2 : nat -> DocumentCollection)
    (collection_name : string) :
  (forall i, status (responses1 i) = status (responses2 i)) ->
  (forall k, emits responses1 collection_name
               (trace responses1 collection_name k)
             <-> emits responses2 collection_name
                   (trace responses2 collection_name k))
  /\ (forall k, returns responses1 collection_name
                  (trace responses1 collection_name k)
                <-> returns responses2 collection_name
                      (trace responses2 collection_name k))
  /\ (forall l1, returns responses1 collection_name l1 ->
        exists l2, returns responses2 collection_name l2
                   /\ fetches l2 = fetches l1)
  /\ (never_returns responses1 collection_name
      <-> never_returns responses2 collection_name)
  /\ (forall n,
        status (responses1 n) = "ready" ->
        (forall i, i < n -> status (responses1 i) <> "ready") ->
        document_embedded_count (responses1 n) < document_count (responses1 n) ->
        returns responses1 collection_name
          (trace responses1 collection_name (S n))).
Proof.
  intros Hsame.
  assert (Hsame' : forall i, status (responses2 i) = status (responses1 i))
    by (intros i; symmetry; apply Hsame).
  assert (Hready : forall i, is_ready (responses1 i) = is_ready (responses2 i))
    by (intros i; unfold is_ready; now rewrite Hsame).
  assert (Hret : forall ra rb : nat -> DocumentCollection,
             (forall i, status (ra i) = status (rb i)) ->
             forall l, returns ra collection_name l ->
             exists l', returns rb collection_name l'
                        /\ fetches l' = fetches l).
  { intros ra rb Hab l Hl. apply returns_inv in Hl.
    destruct Hl as (n & Hfirst & ->).
    exists (trace rb collection_name (S n)). split.
    - apply returns_intro, (first_ready_status ra rb Hab n Hfirst).
    - now rewrite !fetches_trace. }
  repeat split.
  - rewrite !emits_trace_iff. intros H i Hi. rewrite <- Hready. now apply H.
  - rewrite !emits_trace_iff. intros H i Hi. rewrite Hready. now apply H.
  - rewrite !returns_trace_iff. intros (n & -> & Hfirst).
    exists n. split; [reflexivity|].
    apply (first_ready_status responses1 responses2 Hsame n Hfirst).
  - rewrite !returns_trace_iff. intros (n & -> & Hfirst).
    exists n. split; [reflexivity|].
    apply (first_ready_status responses2 responses1 Hsame' n Hfirst).
  - apply (Hret responses1 responses2 Hsame).
  - intros Hnever l Hl.
    destruct (Hret responses2 responses1 Hsame' l Hl) as (l' & Hl' & _).
    exact (Hnever l' Hl').
  - intros Hnever l Hl.
    destruct (Hret responses1 responses2 Hsame l Hl) as (l' & Hl' & _).
    exact (Hnever l' Hl').
  - intros n Hn Hlt _. apply returns_intro. split.
    + apply is_ready_status, Hn.
    + intros i Hi. apply not_ready_status, Hlt, Hi.
Qed.

Lemma returns_at_first_ready_witness :
  exists n,
    (document_embedded_count (Recorded.first_wait n)
     = document_count (Recorded.first_wait n)
     /\ forall i, i < n ->
          document_embedded_count (Recorded.first_wait i)
          <> document_count (Recorded.first_wait i))
    /\ (status (Recorded.first_wait n) = "ready"
        /\ forall i, i < n -> status (Recorded.first_wait i) <> "ready")
    /\ returns Recorded.first_wait "babbage"
         (trace Recorded.first_wait "babbage" (S n))
    /\ fetches (trace Recorded.first_wait "babbage" (S n)) = S n
    /\ forall l, returns Recorded.first_wait "babbage" l ->
         l = trace Recorded.first_wait "babbage" (S n).
Proof.
  apply (returns_at_first_ready Recorded.first_wait "babbage").
  - intros [|[|i]]; cbn; split; intros H; try discriminate H; reflexivity.
  - intros [|[|i]]; cbn; lia.
  - exists 2. reflexivity.
Defined.

Lemma no_return_while_embedding_witness :
  (forall l, returns Recorded.first_wait "babbage" l -> fetches l <> 2)
  /\ emits Recorded.first_wait "babbage"
       (trace Recorded.first_wait "babbage" 2 ++ [Fetched "babbage"]).
Proof.
  destruct (no_return_while_embedding Recorded.first_wait "babbage" 1)
    as [Hreturn Hgoes_on].
  - intros [|[|j]]; cbn; intros H; try discriminate H; reflexivity.
  - cbn. lia.
  - split; [exact Hreturn | apply Hgoes_on].
    apply (emits_prefix Recorded.first_wait "babbage" _
             [Printed (progress_line (Recorded.first_wait 1)); Slept 1]).
    rewrite <- app_assoc.
    change (emits Recorded.first_wait "babbage"
              (trace Recorded.first_wait "babbage" 2)).
    apply emits_trace. intros [|i] Hi; [reflexivity | lia].
Defined.

Lemma no_retry_cap_witness :
  never_returns Recorded.stuck "babbage"
  /\ forall k,
       emits Recorded.stuck "babbage" (trace Recorded.stuck "babbage" k)
       /\ fetches (trace Recorded.stuck "babbage" k) = k.
Proof.
  apply (proj2 (no_retry_cap Recorded.stuck "babbage")).
  intros n. cbn. discriminate.
Defined.


Lemma termination_depends_on_status_only_witness :
  (forall k, returns Recorded.first_wait "babbage"
               (trace Recorded.first_wait "babbage" k)
             <-> returns Recorded.other_counts "babbage"
                   (trace Recorded.other_counts "babbage" k))
  /\ (never_returns Recorded.first_wait "babbage"
      <-> never_returns Recorded.other_counts "babbage").
Proof.
  destruct (termination_depends_on_status_only
              Recorded.first_wait Recorded.other_counts "babbage")
    as (_ & Hret & _ & Hnever & _).
  - intros i. reflexivity.
  - split; [exact Hret | exact Hnever].
Defined.

Lemma prints_and_sleeps_before_testing_witness :
  returns Recorded.early "babbage"
    [Connected ZEP_API_URL ZEP_API_KEY; Fetched "babbage";
     Printed "Embedding status: 0/402 documents embedded"; Slept 1].
Proof.
  apply (proj2 (proj2 (prints_and_sleeps_before_testing Recorded.early "babbage"))).
  reflexivity.
Defined.

End WaitForReady.

(** ** The query client *)

Module QueryFacts.
Import Query.

Lemma in_firstn {A : Type} (k : nat) (l : list A) (x : A) :
  In x (firstn k l) -> In x l.
Proof.
  intros H. rewrite <- (firstn_skipn k l). apply in_or_app. now left.
Qed.

Lemma filter_none {A : Type} (f : A -> bool) (l : list A) :
  (forall x, In x l -> f x = false) -> List.filter f l = [].
Proof.
  induction l as [|x l IH]; intros H; [reflexivity|].
  cbn. rewrite (H x) by now left. apply IH. intros y Hy. apply H. now right.
Qed.

Section Search.
Variable relevance : string -> Document -> Q.
Variable c : Collection.
Variable query : string.
Variable k : nat.
Variable floor : option Q.
Variable filter : option where_clause.

(** Where a result comes from: an embedded document of the collection
    that passes the filter, with its relevance at or above the floor. *)
Lemma similarity_search_in (r : SearchResult) :
  In r (similarity_search relevance c query k floor filter) ->
  In (fst r) (embedded_documents c)
  /\ satisfies filter (fst r) = true
  /\ score r = relevance query (fst r)
  /\ above floor r = true.
Proof.
  unfold similarity_search. intros H. apply in_firstn in H.
  apply (Permutation_in _ (Permutation_sym (Ranking.Permuted_sort _))) in H.
  apply filter_In in H. destruct H as [H Habove].
  apply in_map_iff in H. destruct H as (d & <- & Hd).
  apply filter_In in Hd. destruct Hd as [Hd Hsat].
  cbn [fst]. repeat split; assumption.
Qed.

End Search.

End QueryFacts.

(** *** The recorded searches, run *)

Module QueryRecordedFacts.
Import Query QueryRecorded.

Example solar_search :
  asimilarity_search_with_relevance_scores relevance library solar_query 3
  = [ (tables, 8998482592744614 # 10000000000000000);
      (satellites, 8976143854195493 # 10000000000000000);
      (notation, 889982614061763 # 1000000000000000) ]%Q.
Proof. vm_compute. reflexivity. Qed.

Example astronomy_search :
  asearch relevance library astronomy_query None 3
  = [discovery; knowledge; navigation].
Proof. vm_compute. reflexivity. Qed.

Example astronomy_search_sherlock :
  asearch relevance library astronomy_query
          (Some (jsonpath_eq "source" sherlock_url)) 3
  = [knowledge; pipe; books].
Proof. vm_compute. reflexivity. Qed.

End QueryRecordedFacts.

(** ** What the query client guarantees *)

Module QueryClient.
Import Query QueryFacts.

(** C4.  A similarity search filtered on the metadata field "source" being
    equal to one of two sources returns only documents with that source,
    and none with the other. *)
Theorem filtered_search_keeps_source
    (relevance : string -> Document -> Q) (c : Collection) (query : string)
    (k : nat) (source_a source_b : string) :
  source_a <> source_b ->
  (forall d,
      In d (asearch relevance c query (Some (jsonpath_eq "source" source_a)) k) ->
      lookup "source" (metadata d) = Some source_a)
  /\ List.filter (has_source source_b)
       (asearch relevance c query (Some (jsonpath_eq "source" source_a)) k)
     = [].
Proof.
  intros Hab.
  assert (Hsrc : forall d,
             In d (asearch relevance c query
                     (Some (jsonpath_eq "source" source_a)) k) ->
             lookup "source" (metadata d) = Some source_a).
  { intros d Hd. unfold asearch in Hd. apply in_map_iff in Hd.
    destruct Hd as (r & <- & Hr). apply similarity_search_in in Hr.
    destruct Hr as (_ & Hsat & _). cbn [satisfies] in Hsat.
    destruct (lookup "source" (metadata (fst r))) as [v|]; [|discriminate].
    apply String.eqb_eq in Hsat. now subst v. }
  split; [exact Hsrc|].
  apply filter_none.
  intros d Hd. apply Hsrc in Hd. unfold has_source. cbn [satisfies].
  rewrite Hd. apply String.eqb_neq. exact Hab.
Qed.

Lemma filtered_search_keeps_source_witness :
  (forall d,
      In d (asearch QueryRecorded.relevance QueryRecorded.library
              QueryRecorded.astronomy_query
              (Some (jsonpath_eq "source" QueryRecorded.sherlock_url)) 3) ->
      lookup "source" (metadata d) = Some QueryRecorded.sherlock_url)
  /\ List.filter (has_source QueryRecorded.babbage_url)
       (asearch QueryRecorded.relevance QueryRecorded.library
          QueryRecorded.astronomy_query
          (Some (jsonpath_eq "source" QueryRecorded.sherlock_url)) 3)
     = [].
Proof.
  apply (filtered_search_keeps_source
           QueryRecorded.relevance QueryRecorded.library
           QueryRecorded.astronomy_query 3
           QueryRecorded.sherlock_url QueryRecorded.babbage_url).
  discriminate.
Defined.

End QueryClient.

(** * More of the code *)

(** ** The output parser *)

Module OutputParserFacts.
Import OutputParser StringFacts.

(** Induction along [split]: from the tail, and from what follows a
    separator. *)
Lemma string_ind2 (P : string -> Prop) :
  P EmptyString ->
  (forall c s,
      P s -> (forall c' rest, s = String c' rest -> P rest) -> P (String c s)) ->
  forall s, P s.
Proof.
  intros Hnil Hstep s.
  assert (H : P s /\ forall c' rest, s = String c' rest -> P rest).
  { induction s as [|c s [IH1 IH2]].
    - split; [exact Hnil | intros c' rest H; discriminate].
    - split.
      + apply Hstep; assumption.
      + intros c' rest H. injection H as _ <-. exact IH1. }
  apply H.
Qed.

(** How [split] goes on from a character. *)
Lemma split_separator (rest : string) :
  split (String "," (String " " rest)) = EmptyString :: split rest.
Proof. reflexivity. Qed.

Lemma split_other (c : ascii) (s : string) :
  (forall rest, String c s <> String "," (String " " rest)) ->
  split (String c s) = push c (split s).
Proof.
  intros H. destruct s as [|c' rest]; [reflexivity|].
  cbn [split].
  destruct (Ascii.eqb_spec c ","%char) as [-> | Hc]; [|reflexivity].
  destruct (Ascii.eqb_spec c' " "%char) as [-> | Hc']; [|reflexivity].
  contradiction (H rest). reflexivity.
Qed.

Lemma split_cases (c : ascii) (s : string) :
  (exists rest, String c s = String "," (String " " rest)
                /\ split (String c s) = EmptyString :: split rest)
  \/ ((forall rest, String c s <> String "," (String " " rest))
      /\ split (String c s) = push c (split s)).
Proof.
  destruct s as [|c' rest].
  - right. split; [intros rest H; discriminate | reflexivity].
  - destruct (Ascii.eqb_spec c ","%char) as [-> | Hc].
    + destruct (Ascii.eqb_spec c' " "%char) as [-> | Hc'].
      * left. exists rest. split; reflexivity.
      * right. split; [intros r H; injection H as H _; contradiction|].
        apply split_other. intros r H. injection H as H _. contradiction.
    + right. split; [intros r H; injection H as H _ _; contradiction|].
      apply split_other. intros r H. injection H as H _ _. contradiction.
Qed.

Lemma split_not_nil (s : string) : split s <> [].
Proof.
  destruct s as [|c s]; [discriminate|].
  destruct (split_cases c s) as [(rest & _ & ->) | [_ ->]]; [discriminate|].
  destruct (split s); discriminate.
Qed.

Lemma join_push (c : ascii) (pieces : list string) :
  pieces <> [] -> join (push c pieces) = String c (join pieces).
Proof.
  destruct pieces as [|piece [|next rest]]; intros H;
    [contradiction | reflexivity | reflexivity].
Qed.

Lemma join_cons (item : string) (items : list string) :
  items <> [] -> join (item :: items) = (item ++ ", " ++ join items)%string.
Proof. destruct items; [contradiction | reflexivity]. Qed.

Lemma join_split (s : string) : join (split s) = s.
Proof.
  induction s as [|c s IH IHrest] using string_ind2; [reflexivity|].
  destruct (split_cases c s) as [(rest & Hs & ->) | [_ ->]].
  - injection Hs as -> ->. rewrite join_cons by apply split_not_nil.
    rewrite (IHrest _ _ eq_refl). reflexivity.
  - rewrite join_push by apply split_not_nil. now rewrite IH.
Qed.


Lemma split_head_prefix (s piece : string) (pieces : list string) :
  split s = piece :: pieces -> exists t, s = (piece ++ t)%string.
Proof.
  intros H. pose proof (join_split s) as Hj. rewrite H in Hj.
  destruct pieces as [|next rest].
  - exists EmptyString. cbn in Hj. rewrite <- Hj. symmetry. apply app_empty_r.
  - eexists. symmetry. exact Hj.
Qed.

Lemma has_separator_tail (c : ascii) (s : string) :
  has_separator s -> has_separator (String c s).
Proof. intros (a & b & ->). exists (String c a), b. reflexivity. Qed.

Lemma no_separator_empty : ~ has_separator EmptyString.
Proof. intros (a & b & H). destruct a; discriminate. Qed.

(** No piece has the separator in it. *)
Lemma split_no_separator (s item : string) :
  In item (split s) -> ~ has_separator item.
Proof.
  revert item.
  induction s as [|c s IH IHrest] using string_ind2; intros item Hin.
  - destruct Hin as [<- | []]. apply no_separator_empty.
  - destruct (split_cases c s) as [(rest & Hs & Hsplit) | [Hnot Hsplit]];
      rewrite Hsplit in Hin.
    + injection Hs as -> ->. destruct Hin as [<- | Hin].
      * apply no_separator_empty.
      * apply (IHrest _ _ eq_refl), Hin.
    + destruct (split s) as [|piece pieces] eqn:Hsp;
        [contradiction (split_not_nil s)|].
      destruct Hin as [<- | Hin]; [|apply IH; now right].
      intros (a & b & Hab). destruct a as [|c0 a].
      * cbn in Hab. injection Hab as -> ->.
        destruct (split_head_prefix _ _ _ Hsp) as (t & ->).
        apply (Hnot (b ++ t)%string). reflexivity.
      * cbn in Hab. injection Hab as _ ->.
        apply (IH (a ++ ", " ++ b)%string); [now left|].
        exists a, b. reflexivity.
Qed.

(** A text without the separator is one piece. *)
Lemma split_single (x : string) : ~ has_separator x -> split x = [x].
Proof.
  induction x as [|c x IH]; intros Hx; [reflexivity|].
  destruct (split_cases c x) as [(rest & Hs & _) | [_ ->]].
  - contradiction Hx. exists EmptyString, rest. exact Hs.
  - rewrite IH; [reflexivity|]. intros H. apply Hx, has_separator_tail, H.
Qed.

(** A piece without the separator, then the separator: the piece is cut
    off there. *)
Lemma split_app_separator (x t : string) :
  ~ has_separator x -> split (x ++ ", " ++ t) = x :: split t.
Proof.
  induction x as [|c x IH]; intros Hx; [reflexivity|].
  change (String c x ++ ", " ++ t)%string with (String c (x ++ ", " ++ t))%string.
  destruct (split_cases c (x ++ ", " ++ t)) as [(rest & Hs & _) | [_ ->]].
  - exfalso. injection Hs as -> Hs. destruct x as [|c' x].
    + cbn in Hs. discriminate.
    + cbn in Hs. injection Hs as -> _. apply Hx.
      exists EmptyString, x. reflexivity.
  - rewrite IH; [reflexivity|]. intros H. apply Hx, has_separator_tail, H.
Qed.

Lemma split_join (items : list string) :
  items <> [] ->
  (forall item, In item items -> ~ has_separator item) ->
  split (join items) = items.
Proof.
  induction items as [|x [|y rest] IH]; intros Hne Hno.
  - contradiction.
  - apply split_single, Hno. now left.
  - rewrite join_cons by discriminate.
    rewrite split_app_separator by (apply Hno; now left).
    rewrite IH; [reflexivity | discriminate |].
    intros item Hin. apply Hno. now right.
Qed.

(** *** Stripping *)

Lemma blank_app (a b : string) : blank (a ++ b) = blank a && blank b.
Proof.
  induction a as [|c a IH]; [reflexivity|]. cbn. rewrite IH.
  now rewrite andb_assoc.
Qed.

Lemma lstrip_blank (w : string) : blank w = true -> lstrip w = EmptyString.
Proof.
  induction w as [|c w IH]; [reflexivity|]. cbn.
  intros H. apply andb_true_iff in H. destruct H as [-> H]. apply IH, H.
Qed.

Lemma rstrip_blank (w : string) : blank w = true -> rstrip w = EmptyString.
Proof.
  induction w as [|c w IH]; [reflexivity|]. cbn.
  intros H. apply andb_true_iff in H. destruct H as [-> H]. now rewrite IH.
Qed.

Lemma lstrip_blank_app (w s : string) :
  blank w = true -> lstrip (w ++ s) = lstrip s.
Proof.
  induction w as [|c w IH]; [reflexivity|]. cbn.
  intros H. apply andb_true_iff in H. destruct H as [-> H]. apply IH, H.
Qed.

Lemma rstrip_app_blank (s w : string) :
  blank w = true -> rstrip (s ++ w) = rstrip s.
Proof.
  intros Hw. induction s as [|c s IH]; cbn.
  - apply rstrip_blank, Hw.
  - now rewrite IH.
Qed.

Lemma lstrip_app (s w : string) :
  lstrip (s ++ w) = if blank s then lstrip w else (lstrip s ++ w)%string.
Proof.
  induction s as [|c s IH]; [reflexivity|]. cbn.
  destruct (isspace c); [exact IH | reflexivity].
Qed.

Lemma strip_surrounded (w1 text w2 : string) :
  blank w1 = true -> blank w2 = true ->
  strip (w1 ++ text ++ w2) = strip text.
Proof.
  intros H1 H2. unfold strip. rewrite (lstrip_blank_app w1 _ H1), lstrip_app.
  destruct (blank text) eqn:Hb.
  - now rewrite (lstrip_blank w2 H2), (lstrip_blank text Hb).
  - apply rstrip_app_blank, H2.
Qed.

Lemma strip_blank (text : string) : blank text = true -> strip text = EmptyString.
Proof. intros H. unfold strip. now rewrite (lstrip_blank text H). Qed.

Lemma lstrip_head (s : string) (c : ascii) (r : string) :
  lstrip s = String c r -> isspace c = false.
Proof.
  induction s as [|a s IH]; [discriminate|]. cbn.
  destruct (isspace a) eqn:Ha; [exact IH|].
  intros H. injection H as <- _. exact Ha.
Qed.

Lemma rstrip_head (s : string) (c : ascii) (r : string) :
  rstrip s = String c r -> exists r', s = String c r'.
Proof.
  destruct s as [|a s]; [discriminate|]. cbn.
  destruct (rstrip s); [destruct (isspace a); [discriminate|]|];
    intros H; injection H as <- _; eexists; reflexivity.
Qed.

Lemma rstrip_last (s r : string) (c : ascii) :
  rstrip s = (r ++ String c "")%string -> isspace c = false.
Proof.
  revert r. induction s as [|a s IH]; intros r.
  - cbn. destruct r; discriminate.
  - cbn. destruct (rstrip s) as [|b t] eqn:Hr.
    + destruct (isspace a) eqn:Ha; [destruct r; discriminate|].
      destruct r as [|a' r]; cbn; intros H.
      * injection H as <-. exact Ha.
      * injection H as _ H. destruct r; discriminate.
    + destruct r as [|a' r]; cbn; intros H; [discriminate|].
      injection H as _ H. apply (IH r). exact H.
Qed.

Lemma rstrip_empty (s : string) : rstrip s = EmptyString -> blank s = true.
Proof.
  induction s as [|a s IH]; [reflexivity|]. cbn.
  destruct (rstrip s); [|discriminate].
  destruct (isspace a); [intros _; now rewrite IH | discriminate].
Qed.

Lemma lstrip_decompose (s : string) :
  exists w, blank w = true /\ s = (w ++ lstrip s)%string.
Proof.
  induction s as [|a s (w & Hw & IH)].
  - exists EmptyString. split; reflexivity.
  - cbn. destruct (isspace a) eqn:Ha.
    + exists (String a w). cbn. rewrite Ha, Hw. split; [reflexivity | congruence].
    + exists EmptyString. split; reflexivity.
Qed.

Lemma strip_empty (text : string) : strip text = EmptyString -> blank text = true.
Proof.
  unfold strip. intros H. apply rstrip_empty in H.
  destruct (lstrip_decompose text) as (w & Hw & Heq).
  rewrite Heq, blank_app, Hw, H. reflexivity.
Qed.

Lemma split_one_no_separator (x : string) :
  split x = [x] -> ~ has_separator x.
Proof. intros H. apply (split_no_separator x x). rewrite H. now left. Qed.

Lemma join_last (items : list string) :
  items <> [] -> exists pre, join items = (pre ++ last items EmptyString)%string.
Proof.
  induction items as [|x [|y rest] IH]; intros Hne.
  - contradiction.
  - exists EmptyString. reflexivity.
  - destruct IH as (pre & Hpre); [discriminate|].
    exists (x ++ ", " ++ pre)%string. rewrite join_cons by discriminate.
    rewrite Hpre. change (last (x :: y :: rest) EmptyString)
      with (last (y :: rest) EmptyString).
    now rewrite !app_assoc_string.
Qed.

End OutputParserFacts.

(** ** What the output parser guarantees *)

Module CommaSeparatedList.
Import OutputParser OutputParserFacts StringFacts.

(** X1.  Joining the parsed items with ", " gives back the text without
    its surrounding whitespace: nothing of the text is lost or added. *)
Theorem parse_then_join (text : string) : join (parse text) = strip text.
Proof. unfold parse. apply join_split. Qed.

(** X2.  The parser never gives an empty list: a text that is empty or all
    whitespace, and only such a text, gives the one item [""]. *)
Theorem parse_blank (text : string) :
  parse text <> []
  /\ (blank text = true <-> parse text = [EmptyString]).
Proof.
  split; [apply split_not_nil | split].
  - intros H. unfold parse. now rewrite (strip_blank text H).
  - intros H. apply strip_empty. rewrite <- (join_split (strip text)).
    fold (parse text). now rewrite H.
Qed.

(** X3.  No parsed item has ", " in it: every separator of the stripped
    text has been used to cut. *)
Theorem parse_items_without_separator (text item : string) :
  In item (parse text) -> ~ has_separator item.
Proof. unfold parse. apply split_no_separator. Qed.

Lemma parse_items_without_separator_witness :
  ~ has_separator "bye".
Proof.
  apply (parse_items_without_separator "hi, bye" "bye").
  vm_compute. right. left. reflexivity.
Defined.

(** X4.  Whitespace around the text does not count: the text gives the
    same items with and without it. *)
Theorem parse_ignores_outer_whitespace (before text after : string) :
  blank before = true -> blank after = true ->
  parse (before ++ text ++ after) = parse text.
Proof.
  intros H1 H2. unfold parse. now rewrite (strip_surrounded _ _ _ H1 H2).
Qed.

Lemma parse_ignores_outer_whitespace_witness :
  parse ("  " ++ "red, blue" ++ String "010" EmptyString) = parse "red, blue".
Proof.
  apply (parse_ignores_outer_whitespace "  " "red, blue" (String "010" EmptyString));
    reflexivity.
Defined.

(** X5.  Only the two ends are trimmed: the first item does not begin
    with whitespace and the last does not end with it. *)
Theorem parse_trims_the_ends (text : string) :
  (forall c r rest, parse text = String c r :: rest -> isspace c = false)
  /\ (forall r c, last (parse text) EmptyString = (r ++ String c "")%string ->
                  isspace c = false).
Proof.
  split.
  - intros c r rest H. unfold parse in H.
    destruct (split_head_prefix _ _ _ H) as (t & Ht).
    unfold strip in Ht. cbn in Ht. apply rstrip_head in Ht.
    destruct Ht as (r' & Ht). apply (lstrip_head text c r' Ht).
  - intros r c H.
    destruct (join_last (parse text)) as (pre & Hpre); [apply split_not_nil|].
    unfold parse in Hpre at 1. rewrite join_split, H in Hpre.
    rewrite <- app_assoc_string in Hpre. unfold strip in Hpre.
    apply (rstrip_last _ _ _ Hpre).
Qed.

Lemma parse_trims_the_ends_witness : isspace "x" = false.
Proof.
  apply (proj1 (parse_trims_the_ends "  x , y  ") "x"%char " " ["y"]).
  reflexivity.
Defined.

(** X6.  Parsing is the inverse of joining: items that are not empty as a
    list, none of which has ", " in it, and whose joined text has no
    whitespace around it, come back as they were. *)
Theorem parse_of_join (items : list string) :
  items <> [] ->
  (forall item, In item items -> ~ has_separator item) ->
  strip (join items) = join items ->
  parse (join items) = items.
Proof.
  intros Hne Hno Hstrip. unfold parse. rewrite Hstrip.
  apply split_join; assumption.
Qed.

Lemma parse_of_join_witness :
  parse (join ["red"; "blue"; "green"; "yellow"; "orange"])
  = ["red"; "blue"; "green"; "yellow"; "orange"].
Proof.
  apply (parse_of_join ["red"; "blue"; "green"; "yellow"; "orange"]).
  - discriminate.
  - intros item [<- | [<- | [<- | [<- | [<- | []]]]]];
      apply split_one_no_separator; reflexivity.
  - reflexivity.
Defined.

(** X7.  A comma that no space follows does not separate: a text whose
    stripped form has no ", " in it is one item, the stripped text. *)
Theorem parse_single_item (text : string) :
  ~ has_separator (strip text) -> parse text = [strip text].
Proof. unfold parse. apply split_single. Qed.

Lemma parse_single_item_witness : parse "red,blue" = ["red,blue"].
Proof.
  apply (parse_single_item "red,blue").
  apply split_one_no_separator. reflexivity.
Defined.

(** What the guide shows. *)
Example parse_hi_bye : parse "hi, bye" = ["hi"; "bye"].
Proof. reflexivity. Qed.

Example parse_inner_whitespace : parse " a,  b , c " = ["a"; " b "; "c"].
Proof. reflexivity. Qed.

End CommaSeparatedList.

(** ** Loading the chat history *)

Module ChatHistoryFacts.
Import ChatHistory.

Lemma for_each_app {A : Type} (l1 l2 : list A) (body : A -> py unit) (k : Kernel) :
  for_each (l1 ++ l2) body k
  = bind (for_each l1 body) (fun _ => for_each l2 body) k.
Proof.
  revert k. induction l1 as [|x l1 IH]; intros k; [reflexivity|].
  cbn [app for_each]. unfold bind in *.
  destruct (body x k) as [[[] | e] k']; [apply IH | reflexivity].
Qed.

(** One well-formed entry: one message more, with the entry's content and
    the class its role selects. *)
Lemma add_one_well_formed (msg : list (string * string)) (k : Kernel) :
  well_formed msg ->
  exists m,
    add_one msg k = (inl tt, mkKernel (chat_memory k ++ [m]) (slept k))
    /\ Query.lookup "content" msg = Some (content m)
    /\ is_human m = role_is_human msg.
Proof.
  intros [Hrole Hcontent]. unfold add_one, getitem, role_is_human.
  destruct (Query.lookup "role" msg) as [role|]; [|contradiction].
  destruct (Query.lookup "content" msg) as [c|] eqn:Hc; [|contradiction].
  cbn. destruct (String.eqb role "human"); cbn.
  - exists (HumanMessage c). repeat split.
  - exists (AIMessage c). repeat split.
Qed.

(** One entry without one of the keys: the [KeyError] of the key met
    first, and nothing done. *)
Lemma add_one_key_error (msg : list (string * string)) (k : Kernel) :
  ~ well_formed msg ->
  add_one msg k = (inr (KeyError (missing_key msg)), k).
Proof.
  intros Hbad. unfold add_one, getitem, missing_key, well_formed in *.
  destruct (Query.lookup "role" msg) as [role|]; [|reflexivity].
  destruct (Query.lookup "content" msg) as [c|] eqn:Hc.
  - contradiction Hbad. split; discriminate.
  - cbn. destruct (String.eqb role "human"); reflexivity.
Qed.

Lemma load_well_formed (history : list (list (string * string))) (k : Kernel) :
  (forall msg, In msg history -> well_formed msg) ->
  exists added,
    for_each history add_one k
    = (inl tt, mkKernel (chat_memory k ++ added) (slept k))
    /\ List.map (Query.lookup "content") history
       = List.map (fun m => Some (content m)) added
    /\ List.map role_is_human history = List.map is_human added.
Proof.
  revert k. induction history as [|msg history IH]; intros k Hwf.
  - exists []. cbn. rewrite app_nil_r. destruct k. repeat split.
  - destruct (add_one_well_formed msg k) as (m & Hm & Hc & Hh);
      [apply Hwf; now left|].
    destruct (IH (mkKernel (chat_memory k ++ [m]) (slept k))) as (added & Ha & Hcs & Hhs);
      [intros x Hx; apply Hwf; now right|].
    exists (m :: added). cbn [for_each]. unfold bind. rewrite Hm, Ha.
    cbn [chat_memory slept List.map]. rewrite <- app_assoc. cbn [app].
    rewrite Hc, Hh, Hcs, Hhs. repeat split.
Qed.

End ChatHistoryFacts.

Module Preload.
Import ChatHistory ChatHistoryFacts.

(** X8.  When every entry of the history has a role and a content, the
    cell completes: it hands the store one message per entry, in the order
    of the entries and with their contents, a [HumanMessage] for the
    entries whose role is exactly "human" and an [AIMessage] for all
    others, and then sleeps two seconds, once. *)
Theorem preload_completes
    (test_history : list (list (string * string))) (k : Kernel) :
  (forall msg, In msg test_history -> well_formed msg) ->
  exists added,
    preload test_history k
    = (inl tt, mkKernel (chat_memory k ++ added) (slept k + 2))
    /\ List.map (Query.lookup "content") test_history
       = List.map (fun m => Some (content m)) added
    /\ List.map role_is_human test_history = List.map is_human added.
Proof.
  intros Hwf. destruct (load_well_formed test_history k Hwf) as (added & Ha & Hc & Hh).
  exists added. unfold preload, bind. rewrite Ha. repeat split; assumption.
Qed.

(** X9.  When an entry lacks a key, the cell raises [KeyError] for the
    key it meets first at the first such entry, "role" before "content":
    the entries before it have been handed to the store already, the
    entries after it are not, and the cell does not sleep. *)
Theorem preload_key_error
    (before : list (list (string * string))) (bad : list (string * string))
    (after : list (list (string * string))) (k : Kernel) :
  (forall msg, In msg before -> well_formed msg) ->
  ~ well_formed bad ->
  exists added,
    preload (before ++ bad :: after) k
    = (inr (KeyError (missing_key bad)),
       mkKernel (chat_memory k ++ added) (slept k))
    /\ List.map (Query.lookup "content") before
       = List.map (fun m => Some (content m)) added.
Proof.
  intros Hwf Hbad.
  destruct (load_well_formed before k Hwf) as (added & Ha & Hc & _).
  exists added. split; [|exact Hc].
  unfold preload. unfold bind at 1. rewrite for_each_app. unfold bind at 1.
  rewrite Ha. cbn [for_each]. unfold bind at 1.
  rewrite (add_one_key_error bad _ Hbad). reflexivity.
Qed.

Lemma preload_completes_witness :
  exists added,
    preload [[("role", "human"); ("content", "Who were her contemporaries?")];
             [("role", "ai");
              ("content", "You might want to read Ursula K. Le Guin or Joanna Russ.")]]
            (mkKernel [] 0)
    = (inl tt, mkKernel ([] ++ added) (0 + 2))
    /\ List.map (Query.lookup "content")
         [[("role", "human"); ("content", "Who were her contemporaries?")];
          [("role", "ai");
           ("content", "You might want to read Ursula K. Le Guin or Joanna Russ.")]]
       = List.map (fun m => Some (content m)) added
    /\ List.map role_is_human
         [[("role", "human"); ("content", "Who were her contemporaries?")];
          [("role", "ai");
           ("content", "You might want to read Ursula K. Le Guin or Joanna Russ.")]]
       = List.map is_human added.
Proof.
  apply (preload_completes
           [[("role", "human"); ("content", "Who were her contemporaries?")];
            [("role", "ai");
             ("content", "You might want to read Ursula K. Le Guin or Joanna Russ.")]]
           (mkKernel [] 0)).
  intros msg [<- | [<- | []]]; split; discriminate.
Defined.

Lemma preload_key_error_witness :
  exists added,
    preload ([[("role", "human"); ("content", "Who were her contemporaries?")]]
             ++ [("role", "ai")]
             :: [[("role", "human"); ("content", "What awards did she win?")]])
            (mkKernel [] 0)
    = (inr (KeyError "content"), mkKernel ([] ++ added) 0)
    /\ List.map (Query.lookup "content")
         [[("role", "human"); ("content", "Who were her contemporaries?")]]
       = List.map (fun m => Some (content m)) added.
Proof.
  apply (preload_key_error
           [[("role", "human"); ("content", "Who were her contemporaries?")]]
           [("role", "ai")]
           [[("role", "human"); ("content", "What awards did she win?")]]
           (mkKernel [] 0)).
  - intros msg [<- | []]; split; discriminate.
  - intros [_ H]. apply H. reflexivity.
Defined.

(** A role other than "human", whatever its case, gives an [AIMessage]. *)
Example preload_other_roles :
  preload [[("role", "Human"); ("content", "hello")];
           [("role", "system"); ("content", "be brief")]]
          (mkKernel [] 0)
  = (inl tt, mkKernel [AIMessage "hello"; AIMessage "be brief"] 2).
Proof. reflexivity. Qed.

(** Without any key it is the role that is missed. *)
Example preload_no_key :
  preload [[]] (mkKernel [] 0) = (inr (KeyError "role"), mkKernel [] 0).
Proof. reflexivity. Qed.

End Preload.

(** ** The collection's name *)

Module NamingFacts.
Import Naming StringFacts.

Lemma below_16 (d : N) :
  (d < 16)%N ->
  (d = 0 \/ d = 1 \/ d = 2 \/ d = 3 \/ d = 4 \/ d = 5 \/ d = 6 \/ d = 7
   \/ d = 8 \/ d = 9 \/ d = 10 \/ d = 11 \/ d = 12 \/ d = 13 \/ d = 14
   \/ d = 15)%N.
Proof. lia. Qed.

Lemma hexdigit_isalnum (d : N) : (d < 16)%N -> isalnum (hexdigit d) = true.
Proof.
  intros H. apply below_16 in H.
  repeat (destruct H as [-> | H]; [reflexivity|]). subst. reflexivity.
Qed.

Lemma hexdigit_inj (d e : N) :
  (d < 16)%N -> (e < 16)%N -> hexdigit d = hexdigit e -> d = e.
Proof.
  intros Hd He H. apply (f_equal N_of_ascii) in H. unfold hexdigit in H.
  destruct (N.ltb_spec d 10), (N.ltb_spec e 10);
    rewrite !N_ascii_embedding in H by lia; lia.
Qed.

Lemma length_hex_digits (width : nat) (n : N) :
  String.length (hex_digits width n) = width.
Proof.
  revert n. induction width as [|w IH]; intros n; [reflexivity|].
  cbn [hex_digits]. rewrite length_app_string, IH. cbn. lia.
Qed.

Lemma hex_digits_isalnum (width : nat) (n : N) :
  forallb isalnum (list_ascii_of_string (hex_digits width n)) = true.
Proof.
  revert n. induction width as [|w IH]; intros n; [reflexivity|].
  cbn [hex_digits]. rewrite chars_app, forallb_app, IH. cbn.
  rewrite hexdigit_isalnum; [reflexivity|]. apply N.mod_lt. discriminate.
Qed.

Lemma hex_digits_inj (width : nat) (n m : N) :
  (n < 16 ^ N.of_nat width)%N -> (m < 16 ^ N.of_nat width)%N ->
  hex_digits width n = hex_digits width m -> n = m.
Proof.
  revert n m. induction width as [|w IH]; intros n m Hn Hm H.
  - cbn in Hn, Hm. lia.
  - cbn [hex_digits] in H. apply app_last_inj in H. destruct H as [Hhigh Hlow].
    rewrite Nat2N.inj_succ, N.pow_succ_r' in Hn, Hm.
    apply hexdigit_inj in Hlow; try (apply N.mod_lt; discriminate).
    apply IH in Hhigh; try (apply N.Div0.div_lt_upper_bound; assumption).
    rewrite (N.div_mod n 16), (N.div_mod m 16) by discriminate. congruence.
Qed.

End NamingFacts.

Module CollectionName.
Import Naming NamingFacts StringFacts.

(** X11.  Whatever UUID is drawn, the collection's name is "babbage" and
    32 more characters, 39 in all, every one of them a letter or a digit,
    as the comment beside it asks. *)
Theorem collection_name_alphanumeric (uuid : N) :
  String.length (collection_name uuid) = 39
  /\ String.prefix "babbage" (collection_name uuid) = true
  /\ forallb isalnum (list_ascii_of_string (collection_name uuid)) = true.
Proof.
  unfold collection_name, hex. split; [|split].
  - rewrite length_app_string, length_hex_digits. reflexivity.
  - reflexivity.
  - rewrite chars_app, forallb_app, hex_digits_isalnum. reflexivity.
Qed.

(** X12.  Different UUIDs give different names: the name is as unique as
    the UUID it is made from. *)
Theorem collection_name_unique (uuid1 uuid2 : N) :
  (uuid1 < 2 ^ 128)%N -> (uuid2 < 2 ^ 128)%N ->
  uuid1 <> uuid2 ->
  collection_name uuid1 <> collection_name uuid2.
Proof.
  intros H1 H2 Hne H. apply Hne. unfold collection_name in H.
  apply app_inv_head_string in H. unfold hex in H.
  apply (hex_digits_inj 32); [exact H1 | exact H2 | exact H].
Qed.

Lemma collection_name_unique_witness :
  collection_name 255 <> collection_name 4095.
Proof.
  apply (collection_name_unique 255 4095); [reflexivity | reflexivity | discriminate].
Defined.

Example collection_name_255 :
  collection_name 255 = "babbage000000000000000000000000000000ff".
Proof. reflexivity. Qed.

End CollectionName.

(** ** More on [wait_for_ready] *)

Module CallerFacts.
Import Poller PollerFacts Caller StringFacts.

Section Waits.
Variable responses : nat -> DocumentCollection.
Variable collection_name : string.

(** [wait_for_ready], called when [s] fetches have been answered. *)
Lemma wait_skip (k s : nat) :
  (forall i, i < k -> is_ready (responses (s + i)) = false) ->
  interp_state (h_store responses) (wait_for_ready collection_name) s
  ≈ say (Connected ZEP_API_URL ZEP_API_KEY
           :: iterations responses collection_name s k)
        (interp_state (h_store responses)
           (polling_loop (mkClient ZEP_API_URL ZEP_API_KEY) collection_name)
           (s + k)).
Proof.
  intros Hk. unfold wait_for_ready. cbn [say].
  rewrite interp_state_bind, interp_state_trigger. cbn [h_store].
  rewrite bind_vis. apply eqit_Vis. intros _. rewrite bind_ret_l. cbn [fst snd].
  apply (loop_skip responses _ collection_name k s Hk).
Qed.

Lemma wait_stops (n s : nat) :
  (forall i, i < n -> is_ready (responses (s + i)) = false) ->
  is_ready (responses (s + n)) = true ->
  interp_state (h_store responses) (wait_for_ready collection_name) s
  ≈ say (Connected ZEP_API_URL ZEP_API_KEY
           :: iterations responses collection_name s (S n))
        (Ret (S (s + n), tt)).
Proof.
  intros Hlt Hn. unfold wait_for_ready. cbn [say].
  rewrite interp_state_bind, interp_state_trigger. cbn [h_store].
  rewrite bind_vis. apply eqit_Vis. intros _. rewrite bind_ret_l. cbn [fst snd].
  apply (loop_stops responses _ collection_name n s Hlt Hn).
Qed.

(** The second wait starts where the first one ended. *)
Lemma run_twice_second (n : nat) :
  first_ready responses n ->
  run_twice responses collection_name
  ≈ say (trace responses collection_name (S n))
        (interp_state (h_store responses) (wait_for_ready collection_name) (S n)).
Proof.
  intros Hfirst. unfold run_twice, wait_twice.
  rewrite interp_state_bind.
  change (interp_state (h_store responses) (wait_for_ready collection_name) 0)
    with (run responses collection_name).
  rewrite (run_stops responses collection_name n Hfirst).
  rewrite bind_say, bind_ret_l. reflexivity.
Qed.

Lemma of_the_loop_iterations (from k : nat) :
  Forall (of_the_loop collection_name)
         (iterations responses collection_name from k).
Proof.
  revert from. induction k as [|k IH]; intros from; [constructor|].
  rewrite iterations_cons. unfold iteration. cbn [app].
  repeat constructor. apply IH.
Qed.

(** What the loop shows holds no connection. *)
Lemma of_the_loop_connections (l : list obs) :
  Forall (of_the_loop collection_name) l -> connections l = 0.
Proof.
  induction 1 as [|o l Ho _ IH]; [reflexivity|].
  destruct o; [contradiction Ho | exact IH | exact IH | exact IH].
Qed.

(** Whatever the store answers, a run gets as far as its first fetch. *)
Lemma emits_first_fetch :
  emits responses collection_name
    [Connected ZEP_API_URL ZEP_API_KEY; Fetched collection_name].
Proof.
  apply (emits_prefix responses collection_name _
           [Printed (progress_line (responses 0)); Slept 1]).
  change (emits responses collection_name (trace responses collection_name 1)).
  apply emits_trace. intros i Hi. lia.
Qed.

(** Sleeps keep step with fetches in whatever a run has shown. *)
Lemma prefix_iterations_sleeps (k from : nat) (l l' : list obs) :
  iterations responses collection_name from k = l ++ l' ->
  seconds_slept l <= fetches l <= S (seconds_slept l).
Proof.
  revert from l; induction k as [|k IH]; intros from l H.
  - destruct l; [cbn; lia | discriminate].
  - rewrite iterations_cons in H. unfold iteration in H. cbn [app] in H.
    destruct l as [|o1 [|o2 [|o3 l]]]; cbn [app] in H.
    + cbn. lia.
    + injection H as <- _. cbn. lia.
    + injection H as <- <- _. cbn. lia.
    + injection H as <- <- <- H. apply IH in H.
      change (Fetched collection_name
                :: Printed (progress_line (responses from)) :: Slept 1 :: l)
        with ([Fetched collection_name;
               Printed (progress_line (responses from)); Slept 1] ++ l).
      rewrite seconds_slept_app, fetches_app.
      change (seconds_slept [Fetched collection_name;
                Printed (progress_line (responses from)); Slept 1]) with 1.
      change (fetches [Fetched collection_name;
                Printed (progress_line (responses from)); Slept 1]) with 1.
      lia.
Qed.

Lemma prefix_trace_sleeps (k : nat) (l l' : list obs) :
  trace responses collection_name k = l ++ l' ->
  seconds_slept l <= fetches l <= S (seconds_slept l).
Proof.
  unfold trace. destruct l as [|o l]; cbn [app]; intros H.
  - cbn. lia.
  - injection H as <- H. apply prefix_iterations_sleeps in H.
    change (Connected ZEP_API_URL ZEP_API_KEY :: l)
      with ([Connected ZEP_API_URL ZEP_API_KEY] ++ l).
    rewrite seconds_slept_app, fetches_app. exact H.
Qed.

End Waits.

End CallerFacts.

Module WaitForReadyMore.
Import Poller PollerFacts Caller CallerFacts ProgressLineFacts StringFacts.

Section Properties.
Variable responses : nat -> DocumentCollection.
Variable collection_name : string.

(** X13.  A run connects exactly once, before anything else, to the
    configured URL with the configured key, and goes on to fetch: whatever
    the store answers it gets as far as its first fetch.  Everything it
    shows after the connection is a fetch of the collection it was called
    for, a printed line or a sleep of one second.  It never fetches
    another collection and never connects again, so a run that returns
    has connected once. *)
Theorem connects_once_then_polls :
  emits responses collection_name
    [Connected ZEP_API_URL ZEP_API_KEY; Fetched collection_name]
  /\ (forall l, emits responses collection_name l ->
        l = []
        \/ exists l1,
             l = Connected ZEP_API_URL ZEP_API_KEY :: l1
             /\ Forall (of_the_loop collection_name) l1
             /\ connections l = 1)
  /\ (forall l, returns responses collection_name l ->
        exists l1,
          l = Connected ZEP_API_URL ZEP_API_KEY :: l1
          /\ Forall (of_the_loop collection_name) l1
          /\ connections l = 1).
Proof.
  split; [apply emits_first_fetch | split].
  - intros l H. apply emits_inv in H. destruct H as (k & l' & Hk & _).
    unfold trace in Hk. destruct l as [|o l1]; [now left | right].
    cbn [app] in Hk. injection Hk as <- Hk. exists l1.
    pose proof (of_the_loop_iterations responses collection_name 0 k) as Hall.
    rewrite Hk in Hall. apply Forall_app in Hall. destruct Hall as [Hall _].
    split; [reflexivity | split; [exact Hall|]].
    change (S (connections l1) = 1).
    now rewrite (of_the_loop_connections collection_name l1 Hall).
  - intros l H. apply returns_inv in H. destruct H as (n & _ & ->).
    exists (iterations responses collection_name 0 (S n)).
    pose proof (of_the_loop_iterations responses collection_name 0 (S n))
      as Hall.
    split; [reflexivity | split; [exact Hall|]].
    change (S (connections (iterations responses collection_name 0 (S n))) = 1).
    now rewrite (of_the_loop_connections collection_name _ Hall).
Qed.

(** X14.  The loop fetches at most once a second: in whatever a run has
    shown there is a one-second sleep for every fetch but possibly the
    last, and a run that returns has slept exactly as many seconds as it
    made fetches. *)
Theorem one_sleep_per_fetch :
  (forall l, emits responses collection_name l ->
     seconds_slept l <= fetches l <= S (seconds_slept l))
  /\ (forall l, returns responses collection_name l ->
        seconds_slept l = fetches l).
Proof.
  split.
  - intros l H. apply emits_inv in H. destruct H as (k & l' & Hk & _).
    apply (prefix_trace_sleeps responses collection_name k l l' Hk).
  - intros l H. apply returns_inv in H. destruct H as (n & _ & ->).
    now rewrite seconds_slept_trace, fetches_trace.
Qed.

(** X15.  A second wait does not return on the answer that ended the
    first.  It connects again and fetches afresh: it returns after the
    first "ready" among the responses that follow, having made at least
    one more fetch, and if no such response follows it never returns. *)
Theorem second_wait_polls_afresh (n : nat) :
  first_ready responses n ->
  (forall j,
      (forall i, i < j -> is_ready (responses (S n + i)) = false) ->
      is_ready (responses (S n + j)) = true ->
      run_twice responses collection_name
      ≈ say (trace responses collection_name (S n)
             ++ Connected ZEP_API_URL ZEP_API_KEY
                  :: iterations responses collection_name (S n) (S j))
            (Ret (S (S n + j), tt))
      /\ forall l s,
           run_twice responses collection_name ≈ say l (Ret (s, tt)) ->
           fetches l = S n + S j)
  /\ ((forall i, is_ready (responses (S n + i)) = false) ->
      forall l s,
        ~ run_twice responses collection_name ≈ say l (Ret (s, tt))).
Proof.
  intros Hfirst. split.
  - intros j Hlt Hj.
    assert (Hrun :
      run_twice responses collection_name
      ≈ say (trace responses collection_name (S n)
             ++ Connected ZEP_API_URL ZEP_API_KEY
                  :: iterations responses collection_name (S n) (S j))
            (Ret (S (S n + j), tt))).
    { rewrite (run_twice_second responses collection_name n Hfirst).
      rewrite (wait_stops responses collection_name j (S n) Hlt Hj).
      now rewrite say_app. }
    split; [exact Hrun|].
    intros l s H. rewrite Hrun in H. apply say_ret_inj in H.
    destruct H as [<- _].
    change (Connected ZEP_API_URL ZEP_API_KEY
              :: iterations responses collection_name (S n) (S j))
      with ([Connected ZEP_API_URL ZEP_API_KEY]
              ++ iterations responses collection_name (S n) (S j)).
    rewrite !fetches_app, fetches_trace, fetches_iterations. reflexivity.
  - intros Hnever l s H.
    rewrite (run_twice_second responses collection_name n Hfirst) in H.
    rewrite (wait_skip responses collection_name (length l) (S n)) in H
      by (intros i _; apply Hnever).
    rewrite <- say_app in H. symmetry in H. apply say_ret_bound in H.
    rewrite length_app, length_trace in H. cbn [length] in H.
    rewrite length_iterations in H. lia.
Qed.

End Properties.

Lemma connects_once_then_polls_witness :
  exists l1,
    trace Recorded.first_wait "babbage" 3
    = Connected ZEP_API_URL ZEP_API_KEY :: l1
    /\ Forall (of_the_loop "babbage") l1
    /\ connections (trace Recorded.first_wait "babbage" 3) = 1.
Proof.
  apply (proj2 (proj2 (connects_once_then_polls Recorded.first_wait "babbage"))).
  apply returns_intro, RecordedFacts.first_wait_first_ready.
Defined.

Lemma one_sleep_per_fetch_witness :
  seconds_slept (trace Recorded.first_wait "babbage" 3)
  = fetches (trace Recorded.first_wait "babbage" 3).
Proof.
  apply (proj2 (one_sleep_per_fetch Recorded.first_wait "babbage")).
  apply returns_intro, RecordedFacts.first_wait_first_ready.
Defined.

Lemma second_wait_polls_afresh_witness :
  run_twice Recorded.first_wait "babbage"
  ≈ say (trace Recorded.first_wait "babbage" 3
         ++ Connected ZEP_API_URL ZEP_API_KEY
              :: iterations Recorded.first_wait "babbage" 3 1)
        (Ret (4, tt)).
Proof.
  apply (proj1 (second_wait_polls_afresh Recorded.first_wait "babbage" 2
                  RecordedFacts.first_wait_first_ready) 0).
  - intros i Hi. lia.
  - reflexivity.
Defined.

(** X16.  The progress line can be read back: two responses give the
    same line exactly when they agree on both counts, whatever their
    statuses. *)
Theorem progress_line_determines_counts (c1 c2 : DocumentCollection) :
  progress_line c1 = progress_line c2
  <-> document_embedded_count c1 = document_embedded_count c2
      /\ document_count c1 = document_count c2.
Proof.
  unfold progress_line. split.
  - intros H. apply app_inv_head_string in H.
    apply (digits_then "/") in H;
      [|reflexivity | apply digits_str | apply digits_str].
    destruct H as [He H]. apply str_inj in He.
    apply (digits_then " ") in H;
      [|reflexivity | apply digits_str | apply digits_str].
    destruct H as [Ht _]. apply str_inj in Ht. split; assumption.
  - intros [-> ->]. reflexivity.
Qed.

(** The two waits, looked at for a hundred steps. *)
Example first_wait_twice :
  observe_for 100 (run_twice Recorded.first_wait "babbage")
  = (trace Recorded.first_wait "babbage" 3
     ++ Connected ZEP_API_URL ZEP_API_KEY
          :: iterations Recorded.first_wait "babbage" 3 1,
     Some (4, tt)).
Proof. vm_compute. reflexivity. Qed.

End WaitForReadyMore.
